(** * SymbolicMath.go: the expression algebra of package [symbolic]

    A shallow embedding of the scalar, vector and matrix expression types of
    [symbolic] and of the dimension checks of [smErrors]:
    - symbolic/constant.go: the constant [K], followed by the
      [ScalarExpression] interface with [IsScalarExpression] and
      [ToScalarExpression];
    - symbolic/variable_vector.go: [VariableVector], followed by
      [Polynomial] (polynomial.go);
    - symbolic/variable_matrix.go: [VariableMatrix];
    - symbolic/expression.go: [IsExpression], [ToExpression];
    - smErrors/dimension_error.go: [DimensionError] and the dimension
      checks.
    The declarations these files use and that are not among them
    ([Variable], [Monomial], [KVector], [UniqueVars], ...) are modelled from
    the spec, each under a comment that says so.

    Conventions.
    - Go [float64] is Rocq's primitive binary64 [float]; Go [int] is [Z]
      (only lengths and indices occur, so no wrap-around is involved);
      [uint64] identifiers are [N].
    - A Go value of static type [interface{}] is a [value]; a value that
      implements the [Expression] interface is an [Expression].
    - A function that can [panic] returns a [result]; a function that returns
      [error] returns an [option error] ([None] is Go's [nil]).
    - Slices are lists wherever no two live slices share a backing array;
      [Module Mem] models the backing arrays explicitly for the methods that
      write through a copied slice header. *)

From Stdlib Require Import ZArith List String Bool Lia.
From Stdlib Require Import Floats.PrimFloat.
From stdpp Require Import base list.
Import ListNotations.
Local Open Scope string_scope.
Local Open Scope Z_scope.

(* ------------------------------------------------------------------ *)
(** ** Data model *)
(* ------------------------------------------------------------------ *)

(** [type K float64] (constant.go). *)
Definition K : Type := float.

(** Modelled from the spec: the struct [Variable] is declared outside the
    files at hand.  The spec gives a variable no payload beyond its
    identity; the sources read its field [ID] ([uint64]).  (The record is
    named [Var] because [Variable] is a reserved command name.) *)
Record Var : Type := { ID : N }.

(** Modelled from the spec: the struct [Monomial] is declared outside the
    files at hand; its three fields are the ones [K.ToMonomial] fills. *)
Record Monomial : Type := {
  Coefficient : float;
  VariableFactors : list Var;
  Exponents : list Z
}.

(** [type Polynomial struct { Monomials []Monomial }] (polynomial.go). *)
Record Polynomial : Type := { Monomials : list Monomial }.

(** [type VariableVector struct { Elements []Variable }]. *)
Record VariableVector : Type := { Elements : list Var }.

(** [type VariableMatrix [][]Variable]. *)
Definition VariableMatrix : Type := list (list Var).

(** Modelled from the spec: the type [KVector] is declared outside the
    files at hand.  It is the vector container of constants;
    [K.Comparison] appends [K]s to it and takes its [len], so it is a slice
    of [K]. *)
Definition KVector : Type := list K.

(** Modelled from the spec: the type [ConstrSense] is declared outside the
    files at hand.  A sense is one of "equal", "less than or equal",
    "greater than or equal"; the constructors are the three constants the
    sources use. *)
Inductive ConstrSense : Type :=
| SenseEqual
| SenseLessThanEqual
| SenseGreaterThanEqual.

(** The dynamic types of the algebra that implement [Expression]. *)
Inductive Expression : Type :=
| EK (c : K)
| EVariable (v : Var)
| EMonomial (m : Monomial)
| EPolynomial (p : Polynomial)
| EKVector (kv : KVector)
| EVariableVector (vv : VariableVector)
| EVariableMatrix (vm : VariableMatrix).

(** A Go [interface{}] operand: an expression of the algebra, or one of the
    foreign dynamic types the type switches mention ([int], [float64]), or
    some other value (a [string] stands for "any other type"). *)
Inductive value : Type :=
| VInt (i : Z)
| VFloat64 (f : float)
| VString (s : string)
| VExpr (e : Expression).

(** Arguments of a [fmt.Errorf] call. *)
Inductive fmtarg : Type :=
| FInt (n : Z)
| FValue (v : value)
| FSense (s : ConstrSense).

(** The error values the modelled code builds.  [Errorf] is [fmt.Errorf]
    with the format string of the source; [Wrapf] is a [fmt.Errorf] whose
    last [%v] argument is another error; [RuntimeError] is a panic raised by
    the Go runtime itself (index out of range, nil dereference) or by the
    dense linear-algebra library. *)
Inductive error : Type :=
| EmptyMatrixError (Expr : Expression)
| EmptyVectorError (Expr : Expression)
| MatrixColumnMismatchError (ExpectedNColumns ActualNColumns Row : Z)
| DimensionError (Arg1 Arg2 : Expression) (Operation : string)
| UnsupportedInputError (FunctionName : string) (Input : value)
| Errorf (format : string) (args : list fmtarg)
| Wrapf (format : string) (args : list fmtarg) (err : error)
| RuntimeError (msg : string).

(** Is the error value of the struct type [smErrors.DimensionError]? *)
Definition is_DimensionError (e : error) : bool :=
  match e with
  | DimensionError _ _ _ => true
  | _ => false
  end.

(** Modelled from the spec: the constraint structs are declared outside
    the files at hand.  A constraint pairs two expressions with a sense;
    the field names are those of the composite literals in
    [K.Comparison]. *)
Inductive Constraint : Type :=
| ScalarConstraint (LeftHandSide RightHandSide : Expression) (Sense : ConstrSense)
| VectorConstraint (LeftHandSide RightHandSide : Expression) (Sense : ConstrSense).

(* ------------------------------------------------------------------ *)
(** ** Panics *)
(* ------------------------------------------------------------------ *)

Inductive result (A : Type) : Type :=
| Ok (a : A)
| Panic (e : error).
Arguments Ok {A} a.
Arguments Panic {A} e.

Definition bind {A B : Type} (c : result A) (k : A -> result B) : result B :=
  match c with
  | Ok a => k a
  | Panic e => Panic e
  end.

Notation "x <- c1 ;; c2" := (bind c1 (fun x => c2))
  (at level 100, c1 at next level, right associativity).
Notation "c1 ;; c2" := (bind c1 (fun _ => c2))
  (at level 100, right associativity).

(** [if err != nil { panic(err) }]. *)
Definition must (err : option error) : result unit :=
  match err with
  | Some e => Panic e
  | None => Ok tt
  end.

(** [s[i]] for a Go [int] index: the runtime panics outside [0, len s). *)
Definition index {A : Type} (s : list A) (i : Z) : result A :=
  if i <? 0 then Panic (RuntimeError "index out of range")
  else match s !! Z.to_nat i with
       | Some a => Ok a
       | None => Panic (RuntimeError "index out of range")
       end.

(** [s[i] = x] for a Go [int] index. *)
Definition store {A : Type} (s : list A) (i : Z) (x : A) : result (list A) :=
  if i <? 0 then Panic (RuntimeError "index out of range")
  else if (Z.to_nat i <? length s)%nat then Ok (<[Z.to_nat i := x]> s)
  else Panic (RuntimeError "index out of range").

Definition len {A : Type} (s : list A) : Z := Z.of_nat (length s).


(* ------------------------------------------------------------------ *)
(** ** Variables and monomials (declared outside the files at hand) *)
(* ------------------------------------------------------------------ *)

(** Modelled from the spec: [Variable.Check] is missing.  The spec gives a
    variable nothing but its identity, so no variable is ill-formed. *)
Definition Variable_Check (v : Var) : option error := None.

(** Modelled from the spec: [Variable.ToMonomial] is missing.  A variable
    is promoted to the monomial [1 * v^1]. *)
Definition Variable_ToMonomial (v : Var) : Monomial :=
  {| Coefficient := 1; VariableFactors := [v]; Exponents := [1] |}.

(** Modelled from the spec: [Monomial.Check] is missing.  A monomial fails
    exactly when the number of exponents differs from the number of factors
    (the message is the one the repository's tests expect). *)
Definition Monomial_Check (m : Monomial) : option error :=
  if len (Exponents m) =? len (VariableFactors m) then None
  else Some (Errorf
    "the number of degrees (%v) does not match the number of variables (%v)"
    [FInt (len (Exponents m)); FInt (len (VariableFactors m))]).

(** Modelled from the spec: [Monomial.IsConstant] is missing.  A monomial
    with an empty factor list is a pure constant. *)
Definition Monomial_IsConstant (m : Monomial) : bool :=
  len (VariableFactors m) =? 0.

(** Modelled from the spec: [Monomial.IsVariable] is missing.  A monomial
    stands for the variable [v] when its footprint is the single pair
    [(v, 1)]. *)
Definition Monomial_IsVariable (m : Monomial) (vIn : Var) : bool :=
  match VariableFactors m, Exponents m with
  | [w], [1] => N.eqb (ID w) (ID vIn)
  | _, _ => false
  end.

(** Modelled from the spec: [Monomial.Variables] is missing.  The variables
    of a monomial are its factors. *)
Definition Monomial_Variables (m : Monomial) : list Var := VariableFactors m.

(** Modelled from the spec: [UniqueVars] is missing.  It deduplicates by
    identity: a variable is appended to the output unless one of the same
    identity is there already. *)
Fixpoint UniqueVars_from (varsOut varsIn : list Var) : list Var :=
  match varsIn with
  | [] => varsOut
  | v :: rest =>
      if existsb (fun w => N.eqb (ID w) (ID v)) varsOut
      then UniqueVars_from varsOut rest
      else UniqueVars_from (varsOut ++ [v])%list rest
  end.

(** Modelled from the spec: [UniqueVars], the loop above started with an
    empty output. *)
Definition UniqueVars (varsIn : list Var) : list Var := UniqueVars_from [] varsIn.

(** Modelled from the spec: [Variable.Plus] is missing.  Adding a constant
    promotes the variable to a polynomial and appends the constant term. *)
Definition Variable_Plus (v : Var) (right : K) : Expression :=
  EPolynomial {| Monomials :=
    [Variable_ToMonomial v;
     {| Coefficient := right; VariableFactors := []; Exponents := [] |}] |}.

(** Modelled from the spec: [Variable.Multiply] is missing.  Scaling a
    variable by a constant gives the monomial [right * v^1]. *)
Definition Variable_Multiply (v : Var) (right : K) : Expression :=
  EMonomial {| Coefficient := right; VariableFactors := [v]; Exponents := [1] |}.

(** The type assertions [x.(Polynomial)] and [x.(Monomial)]. *)
Definition as_Polynomial (e : Expression) : result Polynomial :=
  match e with
  | EPolynomial p => Ok p
  | _ => Panic (RuntimeError "interface conversion: Expression is not Polynomial")
  end.

Definition as_Monomial (e : Expression) : result Monomial :=
  match e with
  | EMonomial m => Ok m
  | _ => Panic (RuntimeError "interface conversion: Expression is not Monomial")
  end.



(* ------------------------------------------------------------------ *)
(** ** constant.go: [K] *)
(* ------------------------------------------------------------------ *)

Definition Zero : K := 0%float.
Definition One : K := 1%float.

Definition K_Check (c : K) : option error := None.

Definition K_Variables (c : K) : list Var := [].

Definition K_Constant (c : K) : float := c.

Definition K_Dims (c : K) : list Z := [1; 1].

Definition K_Transpose (c : K) : Expression := EK c.

Definition K_ToMonomial (c : K) : Monomial :=
  {| Coefficient := c; VariableFactors := []; Exponents := [] |}.

Definition K_ToPolynomial (c : K) : Polynomial :=
  {| Monomials := [K_ToMonomial c] |}.

(* ------------------------------------------------------------------ *)
(** ** [Check] of the containers *)
(* ------------------------------------------------------------------ *)

(** [Polynomial.Check]: the first failing monomial's error, else [nil]. *)
Fixpoint Polynomial_Check_loop (ms : list Monomial) : option error :=
  match ms with
  | [] => None
  | monomial :: rest =>
      match Monomial_Check monomial with
      | Some err => Some err
      | None => Polynomial_Check_loop rest
      end
  end.

Definition Polynomial_Check (p : Polynomial) : option error :=
  Polynomial_Check_loop (Monomials p).

(** [VariableVector.Check]: the loop over [vv.Elements], [ii] counting. *)
Fixpoint VariableVector_Check_loop (ii : Z) (elts : list Var) : option error :=
  match elts with
  | [] => None
  | element :: rest =>
      match Variable_Check element with
      | Some err => Some (Wrapf "element %v has an issue: %v" [FInt ii] err)
      | None => VariableVector_Check_loop (ii + 1) rest
      end
  end.

Definition VariableVector_Check (vv : VariableVector) : option error :=
  VariableVector_Check_loop 0 (Elements vv).

(** [VariableMatrix.Check]: emptiness, then the column counts, then the
    entries. *)
Fixpoint VariableMatrix_Check_columns (numCols ii : Z) (rows : list (list Var))
  : option error :=
  match rows with
  | [] => None
  | vmRow :: rest =>
      if negb (len vmRow =? numCols)
      then Some (MatrixColumnMismatchError numCols (len vmRow) ii)
      else VariableMatrix_Check_columns numCols (ii + 1) rest
  end.

Fixpoint VariableMatrix_Check_row (ii jj : Z) (vmRow : list Var) : option error :=
  match vmRow with
  | [] => None
  | v :: rest =>
      match Variable_Check v with
      | Some err => Some (Wrapf "error in entry (%v, %v): %v" [FInt ii; FInt jj] err)
      | None => VariableMatrix_Check_row ii (jj + 1) rest
      end
  end.

Fixpoint VariableMatrix_Check_entries (ii : Z) (rows : list (list Var))
  : option error :=
  match rows with
  | [] => None
  | vmRow :: rest =>
      match VariableMatrix_Check_row ii 0 vmRow with
      | Some err => Some err
      | None => VariableMatrix_Check_entries (ii + 1) rest
      end
  end.

Definition VariableMatrix_Check (vm : VariableMatrix) : option error :=
  match vm with
  | [] => Some (EmptyMatrixError (EVariableMatrix vm))
  | row0 :: _ =>
      match VariableMatrix_Check_columns (len row0) 0 vm with
      | Some err => Some err
      | None => VariableMatrix_Check_entries 0 vm
      end
  end.

(** Modelled from the spec: [KVector.Check] is missing.  An empty vector
    fails with an "empty" error naming the container; constants are always
    valid. *)
Definition KVector_Check (kv : KVector) : option error :=
  match kv with
  | [] => Some (EmptyVectorError (EKVector kv))
  | _ => None
  end.

(** [e.Check()] through the [Expression] interface. *)
Definition Expression_Check (e : Expression) : option error :=
  match e with
  | EK c => K_Check c
  | EVariable v => Variable_Check v
  | EMonomial m => Monomial_Check m
  | EPolynomial p => Polynomial_Check p
  | EKVector kv => KVector_Check kv
  | EVariableVector vv => VariableVector_Check vv
  | EVariableMatrix vm => VariableMatrix_Check vm
  end.

(* ------------------------------------------------------------------ *)
(** ** [Dims] *)
(* ------------------------------------------------------------------ *)

Definition Polynomial_Dims (p : Polynomial) : list Z := [1; 1].

Definition VariableVector_Length (vv : VariableVector) : Z := len (Elements vv).

Definition VariableVector_Len (vv : VariableVector) : Z := VariableVector_Length vv.

Definition VariableVector_Dims (vv : VariableVector) : list Z :=
  [VariableVector_Len vv; 1].

Definition VariableMatrix_Dims (vm : VariableMatrix) : result (list Z) :=
  must (VariableMatrix_Check vm) ;;
  row0 <- index vm 0 ;;
  Ok [len vm; len row0].

(** Modelled from the spec: [Variable.Dims] is missing.  A variable is a
    scalar, of shape [1, 1]. *)
Definition Variable_Dims (v : Var) : list Z := [1; 1].

(** Modelled from the spec: [Monomial.Dims] is missing.  A monomial is a
    scalar, of shape [1, 1]. *)
Definition Monomial_Dims (m : Monomial) : list Z := [1; 1].

(** Modelled from the spec: [KVector.Dims] is missing.  A vector is a
    matrix with column count 1. *)
Definition KVector_Dims (kv : KVector) : list Z := [len kv; 1].

(** [e.Dims()] through the [MatrixLike] interface. *)
Definition Dims (e : Expression) : result (list Z) :=
  match e with
  | EK c => Ok (K_Dims c)
  | EVariable v => Ok (Variable_Dims v)
  | EMonomial m => Ok (Monomial_Dims m)
  | EPolynomial p => Ok (Polynomial_Dims p)
  | EKVector kv => Ok (KVector_Dims kv)
  | EVariableVector vv => Ok (VariableVector_Dims vv)
  | EVariableMatrix vm => VariableMatrix_Dims vm
  end.

(* ------------------------------------------------------------------ *)
(** ** smErrors/dimension_error.go *)
(* ------------------------------------------------------------------ *)

Module smErrors.

(** Modelled from the spec: [smErrors.IsScalarExpression] is missing.  It
    receives a [MatrixLike], of which only [Dims] can be asked: a scalar is
    an operand of shape [1, 1]. *)
Definition IsScalarExpression (e : Expression) : result bool :=
  d <- Dims e ;;
  d0 <- index d 0 ;;
  d1 <- index d 1 ;;
  Ok ((d0 =? 1) && (d1 =? 1)).

Definition CheckDimensionsInAddition (left right : Expression)
  : result (option error) :=
  ld <- Dims left ;;
  rd <- Dims right ;;
  l0 <- index ld 0 ;;
  r0 <- index rd 0 ;;
  l1 <- index ld 1 ;;
  r1 <- index rd 1 ;;
  let dimsAreMatched := (l0 =? r0) && (l1 =? r1) in
  leftIsScalar <- IsScalarExpression left ;;
  let dimsAreMatched := dimsAreMatched || leftIsScalar in
  rightIsScalar <- IsScalarExpression right ;;
  let dimsAreMatched := dimsAreMatched || rightIsScalar in
  if negb dimsAreMatched
  then Ok (Some (DimensionError left right "Plus"))
  else Ok None.

Definition CheckDimensionsInMultiplication (left right : Expression)
  : result (option error) :=
  ld <- Dims left ;;
  rd <- Dims right ;;
  l1 <- index ld 1 ;;
  r0 <- index rd 0 ;;
  let dimsMatch := l1 =? r0 in
  leftIsScalar <- IsScalarExpression left ;;
  rightIsScalar <- IsScalarExpression right ;;
  let multiplicationIsAllowed := dimsMatch || leftIsScalar || rightIsScalar in
  if negb multiplicationIsAllowed
  then Ok (Some (DimensionError left right "Multiply"))
  else Ok None.

End smErrors.

(* ------------------------------------------------------------------ *)
(** ** scalar_expression.go and expression.go *)
(* ------------------------------------------------------------------ *)

Definition IsScalarExpression (e : value) : bool :=
  match e with
  | VFloat64 _ => true
  | VExpr (EK _) => true
  | VExpr (EVariable _) => true
  | _ => false
  end.

Definition ToScalarExpression (e : value) : Expression * option error :=
  if negb (IsScalarExpression e)
  then (EK 1%float,
        Some (Errorf
          "the input interface is of type %T, which is not recognized as a ScalarExpression."
          [FValue e]))
  else match e with
       | VFloat64 e2 => (EK e2, None)
       | VExpr (EK e2) => (EK e2, None)
       | VExpr (EVariable e2) => (EVariable e2, None)
       | _ => (EK 1%float,
               Some (Errorf
                 "unexpected scalar expression conversion requested for type %T!"
                 [FValue e]))
       end.

(** Modelled from the spec: [IsVectorExpression] is missing.  The vector
    containers are the vector expressions. *)
Definition IsVectorExpression (e : value) : bool :=
  match e with
  | VExpr (EKVector _) => true
  | VExpr (EVariableVector _) => true
  | _ => false
  end.

(** Modelled from the spec: [IsMatrixExpression] is missing.  The matrix
    containers are the matrix expressions. *)
Definition IsMatrixExpression (e : value) : bool :=
  match e with
  | VExpr (EVariableMatrix _) => true
  | _ => false
  end.

(** Modelled from the spec: [ToVectorExpression] is missing.  The
    conversion returns the container itself, and an error for a value that
    is no expression. *)
Definition ToVectorExpression (e : value) : Expression * option error :=
  match e with
  | VExpr x => (x, None)
  | _ => (EK 1%float, Some (Errorf "not a vector expression: %T" [FValue e]))
  end.

(** Modelled from the spec: [ToMatrixExpression] is missing.  The
    conversion returns the container itself, and an error for a value that
    is no expression. *)
Definition ToMatrixExpression (e : value) : Expression * option error :=
  match e with
  | VExpr x => (x, None)
  | _ => (EK 1%float, Some (Errorf "not a matrix expression: %T" [FValue e]))
  end.

Definition IsExpression (e : value) : bool :=
  IsScalarExpression e || IsVectorExpression e || IsMatrixExpression e.

Definition ToExpression (e : value) : result (Expression * option error) :=
  if IsScalarExpression e then Ok (ToScalarExpression e)
  else if IsVectorExpression e then Ok (ToVectorExpression e)
  else if IsMatrixExpression e then Ok (ToMatrixExpression e)
  else Panic (UnsupportedInputError "ToExpression" e).

(** The type assertion [e.(Expression)] with the comma-ok form: [nil] for a
    dynamic type that does not implement the interface. *)
Definition as_Expression (e : value) : option Expression :=
  match e with
  | VExpr x => Some x
  | _ => None
  end.

(** A method call through an interface value that may be [nil]. *)
Definition Check_of (e : option Expression) : result (option error) :=
  match e with
  | Some x => Ok (Expression_Check x)
  | None => Panic (RuntimeError "invalid memory address or nil pointer dereference")
  end.

(* ------------------------------------------------------------------ *)
(** ** polynomial.go *)
(* ------------------------------------------------------------------ *)

Definition Polynomial_Variables (p : Polynomial) : list Var :=
  UniqueVars (flat_map Monomial_Variables (Monomials p)).

(** The search loop of [ConstantMonomialIndex], [ii] counting. *)
Fixpoint ConstantMonomialIndex_loop (ii : Z) (ms : list Monomial) : Z :=
  match ms with
  | [] => -1
  | monomial :: rest =>
      if Monomial_IsConstant monomial then ii
      else ConstantMonomialIndex_loop (ii + 1) rest
  end.

Definition Polynomial_ConstantMonomialIndex (p : Polynomial) : result Z :=
  must (Polynomial_Check p) ;;
  Ok (ConstantMonomialIndex_loop 0 (Monomials p)).

Fixpoint VariableMonomialIndex_loop (vIn : Var) (ii : Z) (ms : list Monomial) : Z :=
  match ms with
  | [] => -1
  | monomial :: rest =>
      if Monomial_IsVariable monomial vIn then ii
      else VariableMonomialIndex_loop vIn (ii + 1) rest
  end.

Definition Polynomial_VariableMonomialIndex (p : Polynomial) (vIn : Var) : result Z :=
  must (Polynomial_Check p) ;;
  must (Variable_Check vIn) ;;
  Ok (VariableMonomialIndex_loop vIn 0 (Monomials p)).

(** The input processing that opens [Polynomial.Plus]. *)
Definition Polynomial_Plus_inputs (p : Polynomial) (e : value) : result unit :=
  must (Polynomial_Check p) ;;
  if IsExpression e
  then eAsE <- ToExpression e ;;
       err <- smErrors.CheckDimensionsInAddition (EPolynomial p) (fst eAsE) ;;
       must err
  else Ok tt.

(** The type switch of [Polynomial.Plus] for an operand that is not a
    [float64].  The [K] case appends when [constantIndex != -1] and writes
    at [constantIndex] otherwise; the [Variable] case has no [return], so it
    falls through to the final panic. *)
Definition Polynomial_Plus_switch (p : Polynomial) (e : value) : result Expression :=
  match e with
  | VExpr (EK right') =>
      let pCopy := p in
      constantIndex <- Polynomial_ConstantMonomialIndex pCopy ;;
      if negb (constantIndex =? -1)
      then
        let rightAsMonom := K_ToMonomial right' in
        Ok (EPolynomial {| Monomials := (Monomials pCopy ++ [rightAsMonom])%list |})
      else
        newMonomial <- index (Monomials pCopy) constantIndex ;;
        let newMonomial :=
          {| Coefficient := PrimFloat.add (Coefficient newMonomial) right';
             VariableFactors := VariableFactors newMonomial;
             Exponents := Exponents newMonomial |} in
        ms <- store (Monomials pCopy) constantIndex newMonomial ;;
        Ok (EPolynomial {| Monomials := ms |})
  | VExpr (EVariable right') =>
      let pCopy := p in
      variableIndex <- Polynomial_VariableMonomialIndex pCopy right' ;;
      (if negb (variableIndex =? -1)
       then Ok tt
       else
         newMonomial <- index (Monomials pCopy) variableIndex ;;
         let newMonomial :=
           {| Coefficient := PrimFloat.add (Coefficient newMonomial) 1;
              VariableFactors := VariableFactors newMonomial;
              Exponents := Exponents newMonomial |} in
         store (Monomials pCopy) variableIndex newMonomial ;;
         Ok tt) ;;
      Panic (Errorf "Unexpected type of right in the Plus() method: %T (%v)"
                    [FValue e; FValue e])
  | _ =>
      Panic (Errorf "Unexpected type of right in the Plus() method: %T (%v)"
                    [FValue e; FValue e])
  end.

(** [Polynomial.Plus]: a [float64] operand re-enters the method as a [K]. *)
Definition Polynomial_Plus (p : Polynomial) (e : value) : result Expression :=
  Polynomial_Plus_inputs p e ;;
  match e with
  | VFloat64 right' =>
      Polynomial_Plus_inputs p (VExpr (EK right')) ;;
      Polynomial_Plus_switch p (VExpr (EK right'))
  | _ => Polynomial_Plus_switch p e
  end.

Definition Polynomial_Transpose (p : Polynomial) : Expression := EPolynomial p.


(* ------------------------------------------------------------------ *)
(** ** variable_vector.go

    The operands of dynamic type [mat.VecDense] (the dense library's
    vectors) are outside the modelled [value]s. *)
(* ------------------------------------------------------------------ *)

Definition VariableVector_Variables (vv : VariableVector) : list Var :=
  Elements vv.


(** [VariableVector.Plus]: the type switch has the [default] case only. *)
Definition VariableVector_Plus (vv : VariableVector) (rightIn : value)
  : result Expression :=
  must (VariableVector_Check vv) ;;
  Panic (Errorf
    "Unrecognized expression type %T for addition of VariableVector vv.Plus(%v)!"
    [FValue rightIn; FValue rightIn]).

Definition VariableVector_Multiply (vv : VariableVector) (rightIn : value)
  : result Expression :=
  must (VariableVector_Check vv) ;;
  (if IsExpression rightIn
   then rightAsE <- ToExpression rightIn ;;
        err <- smErrors.CheckDimensionsInMultiplication
                 (EVariableVector vv) (fst rightAsE) ;;
        must err
   else Ok tt) ;;
  Panic (Errorf
    "The input to VariableVector's Multiply() method (%v) has unexpected type: %T"
    [FValue rightIn; FValue rightIn]).

(** [VariableVector.Comparison] on the operands of type [value]: the cases
    [KVector] and [VariableVector] and the default case of the type switch.
    The remaining case, [mat.VecDense], is in
    [VariableVector_Comparison_operand] below. *)
Definition VariableVector_Comparison (vv : VariableVector) (rhs : value)
  (sense : ConstrSense) : result Constraint :=
  match rhs with
  | VExpr (EKVector rhsConverted) =>
      if negb (VariableVector_Len vv =? len rhsConverted)
      then Panic (Errorf
        "The two inputs to comparison '%v' must have the same dimension, but #1 has dimension %v and #2 has dimension %v!"
        [FSense sense; FInt (VariableVector_Len vv); FInt (len rhsConverted)])
      else Ok (VectorConstraint (EVariableVector vv) (EKVector rhsConverted) sense)
  | VExpr (EVariableVector rhsConverted) =>
      if negb (VariableVector_Len vv =? VariableVector_Len rhsConverted)
      then Panic (Errorf
        "The two inputs to comparison '%v' must have the same dimension, but #1 has dimension %v and #2 has dimension %v!"
        [FSense sense; FInt (VariableVector_Len vv);
         FInt (VariableVector_Len rhsConverted)])
      else Ok (VectorConstraint (EVariableVector vv)
                                (EVariableVector rhsConverted) sense)
  | _ =>
      Panic (Errorf
        "The Eq() method for VariableVector is not implemented yet for type %T!"
        [FValue rhs])
  end.

(** The operands of the type switch of [VariableVector.Comparison]: a value
    as above, or a dense vector of the linear-algebra library
    ([mat.VecDense]), held as the list of its entries (as the result of
    [ZerosVector] is). *)
Inductive operand : Type :=
| OValue (v : value)
| OVecDense (d : list float).

(** [VariableVector.Comparison] with every case of its type switch.
    [case mat.VecDense] converts the dense vector to a [KVector]
    ([rhsAsKVector := KVector(rhsConverted)]) and calls [Comparison] again
    with it, which then takes [case KVector]; the other cases are those of
    [VariableVector_Comparison] above. *)
Definition VariableVector_Comparison_operand (vv : VariableVector)
  (rhs : operand) (sense : ConstrSense) : result Constraint :=
  match rhs with
  | OVecDense rhsConverted =>
      let rhsAsKVector : KVector := rhsConverted in
      VariableVector_Comparison vv (VExpr (EKVector rhsAsKVector)) sense
  | OValue rhs' => VariableVector_Comparison vv rhs' sense
  end.

(** [Copy]: the loop appends the elements one by one to a new slice. *)
Fixpoint VariableVector_Copy_loop (newVarSlice rest : list Var) : list Var :=
  match rest with
  | [] => newVarSlice
  | v :: rest' => VariableVector_Copy_loop (newVarSlice ++ [v])%list rest'
  end.

Definition VariableVector_Copy (vv : VariableVector) : VariableVector :=
  {| Elements := VariableVector_Copy_loop [] (Elements vv) |}.

(** [Transpose] returns the receiver (the copy and the transposition are
    commented out in the source). *)
Definition VariableVector_Transpose (vv : VariableVector) : Expression :=
  EVariableVector vv.

(* ------------------------------------------------------------------ *)
(** ** variable_matrix.go *)
(* ------------------------------------------------------------------ *)

Fixpoint mapM {A B : Type} (f : A -> result B) (l : list A) : result (list B) :=
  match l with
  | [] => Ok []
  | a :: rest => b <- f a ;; bs <- mapM f rest ;; Ok (b :: bs)
  end.

Definition VariableMatrix_Variables (vm : VariableMatrix) : result (list Var) :=
  must (VariableMatrix_Check vm) ;;
  Ok (UniqueVars (concat vm)).

(** The input processing shared by [VariableMatrix.Plus] and
    [VariableMatrix.Multiply]; [what] is the method's name in the message
    and [check] its dimension check. *)
Definition VariableMatrix_inputs (what : string)
  (check : Expression -> Expression -> result (option error))
  (vm : VariableMatrix) (e : value) : result unit :=
  must (VariableMatrix_Check vm) ;;
  if IsExpression e
  then
    let eAsE := as_Expression e in
    err <- Check_of eAsE ;;
    match err, eAsE with
    | Some err, _ => Panic (Wrapf what [] err)
    | None, Some eAsE => err <- check (EVariableMatrix vm) eAsE ;; must err
    | None, None =>
        Panic (RuntimeError "invalid memory address or nil pointer dereference")
    end
  else Ok tt.

(** The type switch of [VariableMatrix.Plus] for an operand that is not a
    [float64]: the [K] case builds [pmOut] and does not return it. *)
Definition VariableMatrix_Plus_switch (vm : VariableMatrix) (e : value)
  : result Expression :=
  match e with
  | VExpr (EK right') =>
      mapM (fun vmRow =>
              mapM (fun v => as_Polynomial (Variable_Plus v right')) vmRow) vm ;;
      Panic (UnsupportedInputError "VariableMatrix.Plus" e)
  | _ => Panic (UnsupportedInputError "VariableMatrix.Plus" e)
  end.

Definition VariableMatrix_Plus (vm : VariableMatrix) (e : value)
  : result Expression :=
  VariableMatrix_inputs "error in second argument to VariableMatrix.Plus: %v"
    smErrors.CheckDimensionsInAddition vm e ;;
  match e with
  | VFloat64 right' =>
      VariableMatrix_inputs "error in second argument to VariableMatrix.Plus: %v"
        smErrors.CheckDimensionsInAddition vm (VExpr (EK right')) ;;
      VariableMatrix_Plus_switch vm (VExpr (EK right'))
  | _ => VariableMatrix_Plus_switch vm e
  end.

Definition VariableMatrix_Multiply_switch (vm : VariableMatrix) (e : value)
  : result Expression :=
  match e with
  | VExpr (EK right') =>
      mapM (fun vmRow =>
              mapM (fun v => as_Monomial (Variable_Multiply v right')) vmRow) vm ;;
      Panic (UnsupportedInputError "VariableMatrix.Multiply" e)
  | _ => Panic (UnsupportedInputError "VariableMatrix.Multiply" e)
  end.

Definition VariableMatrix_Multiply (vm : VariableMatrix) (e : value)
  : result Expression :=
  VariableMatrix_inputs "error in second argument to VariableMatrix.Multiply: %v"
    smErrors.CheckDimensionsInMultiplication vm e ;;
  match e with
  | VFloat64 right' =>
      VariableMatrix_inputs
        "error in second argument to VariableMatrix.Multiply: %v"
        smErrors.CheckDimensionsInMultiplication vm (VExpr (EK right')) ;;
      VariableMatrix_Multiply_switch vm (VExpr (EK right'))
  | _ => VariableMatrix_Multiply_switch vm e
  end.


(* ------------------------------------------------------------------ *)
(** ** constant.go: [K.Comparison]

    The operands of the dense library's types ([mat.VecDense] and its
    pointer) are outside the modelled [value]s. *)
(* ------------------------------------------------------------------ *)

(** [for ii := 0; ii < n; ii++ { kAsKVector = append(kAsKVector, c) }]. *)
Fixpoint K_Comparison_broadcast (c : K) (n : nat) (kAsKVector : KVector) : KVector :=
  match n with
  | O => kAsKVector
  | S n' => K_Comparison_broadcast c n' (kAsKVector ++ [c])%list
  end.

Definition K_Comparison_inputs (rhsIn : value) : result unit :=
  if IsExpression rhsIn
  then rhs <- ToExpression rhsIn ;; must (Expression_Check (fst rhs))
  else Ok tt.

Definition K_Comparison_switch (c : K) (rhsIn : value) (sense : ConstrSense)
  : result Constraint :=
  match rhsIn with
  | VExpr (EK _) | VExpr (EVariable _) | VExpr (EMonomial _)
  | VExpr (EPolynomial _) =>
      let se := fst (ToScalarExpression rhsIn) in
      Ok (ScalarConstraint (EK c) se sense)
  | VExpr (EKVector right') =>
      let kAsKVector := K_Comparison_broadcast c (length right') [] in
      Ok (VectorConstraint (EKVector kAsKVector) (EKVector right') sense)
  | VExpr (EVariableVector right') =>
      let kAsKVector := K_Comparison_broadcast c (length (Elements right')) [] in
      Ok (VectorConstraint (EKVector kAsKVector) (EVariableVector right') sense)
  | _ => Panic (UnsupportedInputError "K.Comparison" rhsIn)
  end.

Definition K_Comparison (c : K) (rhsIn : value) (sense : ConstrSense)
  : result Constraint :=
  K_Comparison_inputs rhsIn ;;
  match rhsIn with
  | VFloat64 right' =>
      K_Comparison_inputs (VExpr (EK right')) ;;
      K_Comparison_switch c (VExpr (EK right')) sense
  | _ => K_Comparison_switch c rhsIn sense
  end.

(* ------------------------------------------------------------------ *)
(** ** Slices with their backing arrays: [Polynomial.Multiply] and
       [Polynomial.Plus] on the Go memory model

    [pCopy := p] copies the struct, that is the slice header of
    [p.Monomials]; both headers point to the same backing array.  An
    assignment [pCopy.Monomials[ii] = x] writes into that array. *)
(* ------------------------------------------------------------------ *)

Module Mem.

(** A slice header: the address of the backing array, length, capacity. *)
Record slice : Type := { s_array : nat; s_len : nat; s_cap : nat }.

(** The backing arrays of the [[]Monomial] slices, by address. *)
Abbreviation heap := (list (list Monomial)).

(** The value of a [Polynomial] variable: the header of its [Monomials]. *)
Record PolynomialHdr : Type := { MonomialsHdr : slice }.

(** The elements a slice shows: the first [s_len] cells of its array. *)
Definition contents (h : heap) (s : slice) : list Monomial :=
  take (s_len s) (default [] (h !! s_array s)).

(** The polynomial a header denotes in a heap. *)
Definition view (h : heap) (p : PolynomialHdr) : Polynomial :=
  {| Monomials := contents h (MonomialsHdr p) |}.

(** [s[i]]. *)
Definition slice_index (h : heap) (s : slice) (i : Z) : result Monomial :=
  index (contents h s) i.

(** [s[i] = x]: the cell [i] of the backing array is overwritten. *)
Definition slice_store (h : heap) (s : slice) (i : Z) (x : Monomial) : result heap :=
  if (i <? 0) || (Z.of_nat (length (contents h s)) <=? i)
  then Panic (RuntimeError "index out of range")
  else Ok (<[s_array s := <[Z.to_nat i := x]> (default [] (h !! s_array s))]> h).

(** The zero value of [Monomial]. *)
Definition Monomial_zero : Monomial :=
  {| Coefficient := 0; VariableFactors := []; Exponents := [] |}.

(** [append(s, x)]: within capacity the element is written after the last
    one, in the same array; otherwise a larger array is allocated (here of
    twice the needed length; the growth policy does not matter below). *)
Definition slice_append (h : heap) (s : slice) (x : Monomial) : slice * heap :=
  if (s_len s <? s_cap s)%nat
  then ({| s_array := s_array s; s_len := S (s_len s); s_cap := s_cap s |},
        <[s_array s := <[s_len s := x]> (default [] (h !! s_array s))]> h)
  else
    let newcap := (2 * S (s_len s))%nat in
    ({| s_array := length h; s_len := S (s_len s); s_cap := newcap |},
     (h ++ [(contents h s ++ [x]) ++ replicate (S (s_len s)) Monomial_zero])%list).

(** Modelled from the spec: [Monomial.Multiply] is missing.  Coefficients
    multiply; the exponent of a shared variable is added to; a new variable
    is appended.  The result is a new monomial value. *)
Fixpoint Monomial_Multiply_factor (vs : list Var) (es : list Z) (v : Var) (e : Z)
  : list Var * list Z :=
  match vs, es with
  | w :: vs', d :: es' =>
      if N.eqb (ID w) (ID v) then (w :: vs', (d + e) :: es')
      else let r := Monomial_Multiply_factor vs' es' v e in
           (w :: fst r, d :: snd r)
  | _, _ => ((vs ++ [v])%list, (es ++ [e])%list)
  end.

(** Modelled from the spec: [Monomial.Multiply], all the factors of the
    right monomial in turn. *)
Fixpoint Monomial_Multiply_factors (vs : list Var) (es : list Z)
  (ws : list Var) (ds : list Z) : list Var * list Z :=
  match ws, ds with
  | w :: ws', d :: ds' =>
      let r := Monomial_Multiply_factor vs es w d in
      Monomial_Multiply_factors (fst r) (snd r) ws' ds'
  | _, _ => (vs, es)
  end.

(** Modelled from the spec: [Monomial.Multiply] with a monomial operand. *)
Definition Monomial_Multiply_Monomial (m r : Monomial) : Monomial :=
  let fs := Monomial_Multiply_factors (VariableFactors m) (Exponents m)
              (VariableFactors r) (Exponents r) in
  {| Coefficient := PrimFloat.mul (Coefficient m) (Coefficient r);
     VariableFactors := fst fs;
     Exponents := snd fs |}.

(** Modelled from the spec: [Monomial.Multiply] by the operand types that
    [Polynomial.Multiply] passes to it: a constant, a variable (promoted to
    a monomial), a monomial. *)
Definition Monomial_Multiply (m : Monomial) (e : Expression) : result Expression :=
  match e with
  | EK c =>
      Ok (EMonomial {| Coefficient := PrimFloat.mul (Coefficient m) c;
                       VariableFactors := VariableFactors m;
                       Exponents := Exponents m |})
  | EVariable v => Ok (EMonomial (Monomial_Multiply_Monomial m (Variable_ToMonomial v)))
  | EMonomial r => Ok (EMonomial (Monomial_Multiply_Monomial m r))
  | _ => Panic (UnsupportedInputError "Monomial.Multiply" (VExpr e))
  end.

(** The input processing that opens [Polynomial.Multiply]. *)
Definition Polynomial_Multiply_inputs (h : heap) (p : PolynomialHdr) (e : value)
  : result unit :=
  must (Polynomial_Check (view h p)) ;;
  if IsExpression e
  then eAsE <- ToExpression e ;;
       err <- smErrors.CheckDimensionsInMultiplication
                (EPolynomial (view h p)) (fst eAsE) ;;
       must err
  else Ok tt.

(** [for ii, _ := range pCopy.Monomials { ... }]: [n] iterations are left,
    the next index is [ii]. *)
Fixpoint Polynomial_Multiply_loop (right' : Expression) (pCopy : PolynomialHdr)
  (n : nat) (ii : Z) (h : heap) : result heap :=
  match n with
  | O => Ok h
  | S n' =>
      m <- slice_index h (MonomialsHdr pCopy) ii ;;
      product_ii <- Monomial_Multiply m right' ;;
      product_ii <- as_Monomial product_ii ;;
      h' <- slice_store h (MonomialsHdr pCopy) ii product_ii ;;
      Polynomial_Multiply_loop right' pCopy n' (ii + 1) h'
  end.

(** The type switch of [Polynomial.Multiply] for an operand that is not a
    [float64]: the three cases have the same body. *)
Definition Polynomial_Multiply_switch (h : heap) (p : PolynomialHdr) (e : value)
  : result (PolynomialHdr * heap) :=
  match e with
  | VExpr (EK _ as right') | VExpr (EVariable _ as right')
  | VExpr (EMonomial _ as right') =>
      let pCopy := p in
      h' <- Polynomial_Multiply_loop right' pCopy
              (s_len (MonomialsHdr pCopy)) 0 h ;;
      Ok (pCopy, h')
  | _ =>
      Panic (Errorf "Unexpected type of right in the Multiply() method: %T (%v)"
                    [FValue e; FValue e])
  end.

(** [Polynomial.Multiply]: the returned header and the heap after the call. *)
Definition Polynomial_Multiply (h : heap) (p : PolynomialHdr) (e : value)
  : result (PolynomialHdr * heap) :=
  Polynomial_Multiply_inputs h p e ;;
  match e with
  | VFloat64 right' =>
      Polynomial_Multiply_inputs h p (VExpr (EK right')) ;;
      Polynomial_Multiply_switch h p (VExpr (EK right'))
  | _ => Polynomial_Multiply_switch h p e
  end.

(** [Polynomial.Plus] with a [K] operand, on the same memory model. *)
Definition Polynomial_Plus_K (h : heap) (p : PolynomialHdr) (right' : K)
  : result (PolynomialHdr * heap) :=
  Polynomial_Plus_inputs (view h p) (VExpr (EK right')) ;;
  let pCopy := p in
  constantIndex <- Polynomial_ConstantMonomialIndex (view h pCopy) ;;
  if negb (constantIndex =? -1)
  then
    let rightAsMonom := K_ToMonomial right' in
    let r := slice_append h (MonomialsHdr pCopy) rightAsMonom in
    Ok ({| MonomialsHdr := fst r |}, snd r)
  else
    newMonomial <- slice_index h (MonomialsHdr pCopy) constantIndex ;;
    let newMonomial :=
      {| Coefficient := PrimFloat.add (Coefficient newMonomial) right';
         VariableFactors := VariableFactors newMonomial;
         Exponents := Exponents newMonomial |} in
    h' <- slice_store h (MonomialsHdr pCopy) constantIndex newMonomial ;;
    Ok (pCopy, h').

(** A header is well formed in a heap when its array is allocated and as
    long as the capacity, and the length is within the capacity. *)
Definition wf (h : heap) (s : slice) : Prop :=
  exists arr, h !! s_array s = Some arr /\
              length arr = s_cap s /\ (s_len s <= s_cap s)%nat.

End Mem.

(** A monomial scaled by a constant, as [Monomial.Multiply] returns it. *)
Definition scaled (k : K) (m : Monomial) : Monomial :=
  {| Coefficient := PrimFloat.mul (Coefficient m) k;
     VariableFactors := VariableFactors m;
     Exponents := Exponents m |}.

(* ------------------------------------------------------------------ *)
(** ** Example values *)
(* ------------------------------------------------------------------ *)

Definition x0 : Var := {| ID := 0 |}.
Definition x1 : Var := {| ID := 1 |}.
Definition x2 : Var := {| ID := 2 |}.

(** The polynomial [1] (one constant monomial). *)
Definition p_one : Polynomial := K_ToPolynomial One.

(** The polynomial [x0] (one monomial, no constant term). *)
Definition p_x0 : Polynomial := {| Monomials := [Variable_ToMonomial x0] |}.

(** The polynomial [x0 + 3]. *)
Definition p_x0_plus_3 : Polynomial :=
  {| Monomials := [Variable_ToMonomial x0; K_ToMonomial 3%float] |}.

Definition vv_01 : VariableVector := {| Elements := [x0; x1] |}.
Definition vv_012 : VariableVector := {| Elements := [x0; x1; x2] |}.
Definition vv_00 : VariableVector := {| Elements := [x0; x0] |}.

Definition vm_2x2 : VariableMatrix := [[x0; x1]; [x1; x2]].

(** The heap with the single array [[2 * x0]], and the polynomial whose
    [Monomials] is that whole array. *)
Definition m_2x0 : Monomial :=
  {| Coefficient := 2; VariableFactors := [x0]; Exponents := [1] |}.
Definition m_6x0 : Monomial :=
  {| Coefficient := 6; VariableFactors := [x0]; Exponents := [1] |}.
Definition h_2x0 : Mem.heap := [[m_2x0]].
Definition hdr_2x0 : Mem.PolynomialHdr :=
  {| Mem.MonomialsHdr := {| Mem.s_array := 0; Mem.s_len := 1; Mem.s_cap := 1 |} |}.

(* ------------------------------------------------------------------ *)
(** ** variable_matrix.go: [At] and [Transpose] *)
(* ------------------------------------------------------------------ *)

Definition VariableMatrix_At (vm : VariableMatrix) (ii jj : Z) : result Expression :=
  must (VariableMatrix_Check vm) ;;
  vmRow <- index vm ii ;;
  v <- index vmRow jj ;;
  Ok (EVariable v).

(** Modelled from the spec: the zero value of the struct [Variable], with
    which [make([]Variable, n)] fills a new slice.  A variable is its
    identity, so the zero variable has identity [0]. *)
Definition Variable_zero : Var := {| ID := 0 |}.

(** [for ii := 0; ii < nCols; ii++ { vmOut = append(vmOut, make([]Variable, nRows)) }],
    [n] iterations left. *)
Fixpoint VariableMatrix_Transpose_alloc (n : nat) (nRows : Z) (vmOut : VariableMatrix)
  : VariableMatrix :=
  match n with
  | O => vmOut
  | S n' =>
      VariableMatrix_Transpose_alloc n' nRows
        (vmOut ++ [replicate (Z.to_nat nRows) Variable_zero])%list
  end.

(** The inner loop [for jj := 0; jj < nCols; jj++ { vmOut[jj][ii] = vm[ii][jj] }],
    [n] iterations left, the next column is [jj].  The rows of [vmOut] are
    separate slices, so the assignment replaces one cell of row [jj]. *)
Fixpoint VariableMatrix_Transpose_inner (vm : VariableMatrix) (ii : Z) (n : nat)
  (jj : Z) (vmOut : VariableMatrix) : result VariableMatrix :=
  match n with
  | O => Ok vmOut
  | S n' =>
      vmRow <- index vm ii ;;
      v <- index vmRow jj ;;
      outRow <- index vmOut jj ;;
      outRow' <- store outRow ii v ;;
      vmOut' <- store vmOut jj outRow' ;;
      VariableMatrix_Transpose_inner vm ii n' (jj + 1) vmOut'
  end.

(** The outer loop [for ii := 0; ii < nRows; ii++], [n] iterations left. *)
Fixpoint VariableMatrix_Transpose_outer (vm : VariableMatrix) (nCols : Z) (n : nat)
  (ii : Z) (vmOut : VariableMatrix) : result VariableMatrix :=
  match n with
  | O => Ok vmOut
  | S n' =>
      vmOut' <- VariableMatrix_Transpose_inner vm ii (Z.to_nat nCols) 0 vmOut ;;
      VariableMatrix_Transpose_outer vm nCols n' (ii + 1) vmOut'
  end.

Definition VariableMatrix_Transpose (vm : VariableMatrix) : result Expression :=
  must (VariableMatrix_Check vm) ;;
  d <- VariableMatrix_Dims vm ;;
  nRows <- index d 0 ;;
  d' <- VariableMatrix_Dims vm ;;
  nCols <- index d' 1 ;;
  let vmOut := VariableMatrix_Transpose_alloc (Z.to_nat nCols) nRows [] in
  vmOut <- VariableMatrix_Transpose_outer vm nCols (Z.to_nat nRows) 0 vmOut ;;
  Ok (EVariableMatrix vmOut).

(* ------------------------------------------------------------------ *)
(** ** polynomial.go: [Comparison] *)
(* ------------------------------------------------------------------ *)

Definition Polynomial_Comparison (p : Polynomial) (rightIn : value)
  (sense : ConstrSense) : result Constraint :=
  must (Polynomial_Check p) ;;
  let r := ToScalarExpression rightIn in
  must (snd r) ;;
  Ok (ScalarConstraint (EPolynomial p) (fst r) sense).

(* ------------------------------------------------------------------ *)
(** ** smErrors/dimension_error.go: subtraction and stacking checks *)
(* ------------------------------------------------------------------ *)

Definition CheckDimensionsInSubtraction (left right : Expression)
  : result (option error) :=
  ld <- Dims left ;;
  rd <- Dims right ;;
  l0 <- index ld 0 ;;
  r0 <- index rd 0 ;;
  l1 <- index ld 1 ;;
  r1 <- index rd 1 ;;
  let dimsAreMatched := (l0 =? r0) && (l1 =? r1) in
  leftIsScalar <- smErrors.IsScalarExpression left ;;
  let dimsAreMatched := dimsAreMatched || leftIsScalar in
  rightIsScalar <- smErrors.IsScalarExpression right ;;
  let dimsAreMatched := dimsAreMatched || rightIsScalar in
  if negb dimsAreMatched
  then Ok (Some (DimensionError left right "Minus"))
  else Ok None.

(** The second loop of [CheckDimensionsInHStack] and of
    [CheckDimensionsInVStack] (the two are the same loop, over the row
    counts with "HStack" and over the column counts with "VStack"):
    [for ii := 1; ii < len(counts); ii++], [n] iterations left. *)
Fixpoint CheckDimensionsInStack_loop (Operation : string)
  (sliceToStack : list Expression) (counts : list Z) (n : nat) (ii : Z)
  : result (option error) :=
  match n with
  | O => Ok None
  | S n' =>
      a <- index counts ii ;;
      b <- index counts (ii - 1) ;;
      let dimsAreMatched := a =? b in
      if negb dimsAreMatched
      then Arg1 <- index sliceToStack (ii - 1) ;;
           Arg2 <- index sliceToStack ii ;;
           Ok (Some (DimensionError Arg1 Arg2 Operation))
      else CheckDimensionsInStack_loop Operation sliceToStack counts n' (ii + 1)
  end.

Definition CheckDimensionsInHStack (sliceToStack : list Expression)
  : result (option error) :=
  nRowsInSlice <- mapM (fun slice => d <- Dims slice ;; index d 0) sliceToStack ;;
  CheckDimensionsInStack_loop "HStack" sliceToStack nRowsInSlice
    (length nRowsInSlice - 1) 1.

Definition CheckDimensionsInVStack (sliceToStack : list Expression)
  : result (option error) :=
  nColsInSlice <- mapM (fun slice => d <- Dims slice ;; index d 1) sliceToStack ;;
  CheckDimensionsInStack_loop "VStack" sliceToStack nColsInSlice
    (length nColsInSlice - 1) 1.

(* ------------------------------------------------------------------ *)
(** ** constant.go: [K.Plus], [K.Multiply], [K.Minus]; expression.go: [Minus]

    These methods dispatch to methods of the other expression types.  The
    methods that are declared outside the files at hand are parameters, so
    that what is proved holds whatever they do; [Polynomial.Multiply] is a
    parameter here as well, its effect on the operand being the subject of
    [Module Mem].  The operands of the dense library's types and the
    monomial and polynomial containers are outside the modelled [value]s. *)
(* ------------------------------------------------------------------ *)

Record Methods : Type := {
  (** [float64(i)] for an [int] *)
  float_of_int : Z -> float;
  Variable_Plus_method : Var -> value -> result Expression;
  Variable_Multiply_method : Var -> value -> result Expression;
  Monomial_Plus_method : Monomial -> value -> result Expression;
  Monomial_Multiply_method : Monomial -> value -> result Expression;
  KVector_Plus_method : KVector -> value -> result Expression;
  KVector_Multiply_method : KVector -> value -> result Expression;
  Polynomial_Multiply_method : Polynomial -> value -> result Expression
}.

Section ConstantArithmetic.

Variable M : Methods.

(** The input processing that opens [K.Plus] ([what] is the format of the
    wrapping error) and [K.Minus]. *)
Definition K_wrap_inputs (what : string) (c : K) (rightIn : value) : result unit :=
  if IsExpression rightIn
  then rightAsE <- ToExpression rightIn ;;
       match Expression_Check (fst rightAsE) with
       | Some err => Panic (Wrapf what [FValue (VExpr (EK c))] err)
       | None => Ok tt
       end
  else Ok tt.

(** The type switch of [K.Plus] for an operand that is neither an [int]
    nor a [float64]. *)
Definition K_Plus_switch (c : K) (rightIn : value) : result Expression :=
  match rightIn with
  | VExpr (EK right') => Ok (EK (PrimFloat.add (K_Constant c) (K_Constant right')))
  | VExpr (EVariable right') => Variable_Plus_method M right' (VExpr (EK c))
  | VExpr (EMonomial right') => Monomial_Plus_method M right' (VExpr (EK c))
  | VExpr (EPolynomial right') => Polynomial_Plus right' (VExpr (EK c))
  | VExpr (EKVector right') => KVector_Plus_method M right' (VExpr (EK c))
  | VExpr (EVariableVector right') => VariableVector_Plus right' (VExpr (EK c))
  | VExpr (EVariableMatrix right') => VariableMatrix_Plus right' (VExpr (EK c))
  | _ => Panic (UnsupportedInputError "K.Plus" rightIn)
  end.

(** [K.Plus]: an [int] or [float64] operand re-enters the method as a [K]. *)
Definition K_Plus (c : K) (rightIn : value) : result Expression :=
  K_wrap_inputs "error in second argument to %v.Plus: %v" c rightIn ;;
  match rightIn with
  | VInt right' =>
      K_wrap_inputs "error in second argument to %v.Plus: %v" c
        (VExpr (EK (float_of_int M right'))) ;;
      K_Plus_switch c (VExpr (EK (float_of_int M right')))
  | VFloat64 right' =>
      K_wrap_inputs "error in second argument to %v.Plus: %v" c
        (VExpr (EK right')) ;;
      K_Plus_switch c (VExpr (EK right'))
  | _ => K_Plus_switch c rightIn
  end.

Definition K_Multiply_inputs (term1 : value) : result unit :=
  if IsExpression term1
  then term1AsE <- ToExpression term1 ;; must (Expression_Check (fst term1AsE))
  else Ok tt.

(** The type switch of [K.Multiply] after the [float64] and [int] cases:
    there is no case for a vector or a matrix. *)
Definition K_Multiply_switch (c : K) (term1 : value) : result Expression :=
  match term1 with
  | VExpr (EK right') => Ok (EK (PrimFloat.mul c right'))
  | VExpr (EVariable right') => Variable_Multiply_method M right' (VExpr (EK c))
  | VExpr (EMonomial right') => Monomial_Multiply_method M right' (VExpr (EK c))
  | VExpr (EPolynomial right') => Polynomial_Multiply_method M right' (VExpr (EK c))
  | _ => Panic (UnsupportedInputError "K.Multiply" term1)
  end.

Definition K_Multiply (c : K) (term1 : value) : result Expression :=
  K_Multiply_inputs term1 ;;
  match term1 with
  | VFloat64 right' =>
      K_Multiply_inputs (VExpr (EK right')) ;;
      K_Multiply_switch c (VExpr (EK right'))
  | VInt right' =>
      K_Multiply_inputs (VExpr (EK (float_of_int M right'))) ;;
      K_Multiply_switch c (VExpr (EK (float_of_int M right')))
  | _ => K_Multiply_switch c term1
  end.

(** [e.Multiply(x)] through the [Expression] interface. *)
Definition Expression_Multiply (e : Expression) (x : value) : result Expression :=
  match e with
  | EK c => K_Multiply c x
  | EVariable v => Variable_Multiply_method M v x
  | EMonomial m => Monomial_Multiply_method M m x
  | EPolynomial p => Polynomial_Multiply_method M p x
  | EKVector kv => KVector_Multiply_method M kv x
  | EVariableVector vv => VariableVector_Multiply vv x
  | EVariableMatrix vm => VariableMatrix_Multiply vm x
  end.

(** [e.Plus(x)] through the [Expression] interface. *)
Definition Expression_Plus (e : Expression) (x : value) : result Expression :=
  match e with
  | EK c => K_Plus c x
  | EVariable v => Variable_Plus_method M v x
  | EMonomial m => Monomial_Plus_method M m x
  | EPolynomial p => Polynomial_Plus p x
  | EKVector kv => KVector_Plus_method M kv x
  | EVariableVector vv => VariableVector_Plus vv x
  | EVariableMatrix vm => VariableMatrix_Plus vm x
  end.

(** [Minus(left, right)] (expression.go):
    [left.Plus(right.Multiply(-1.0))]. *)
Definition Minus (left right : Expression) : result Expression :=
  negated <- Expression_Multiply right (VFloat64 (-1)%float) ;;
  Expression_Plus left (VExpr negated).

(** [K.Minus]: an expression operand is checked and handed to [Minus];
    the switch that follows has the [float64] case only, which re-enters
    the method with a [K]. *)
Definition K_Minus (c : K) (rightIn : value) : result Expression :=
  if IsExpression rightIn
  then
    K_wrap_inputs "error in second argument to %v.Minus: %v" c rightIn ;;
    rightAsE <- ToExpression rightIn ;;
    Minus (EK c) (fst rightAsE)
  else
    match rightIn with
    | VFloat64 right' =>
        K_wrap_inputs "error in second argument to %v.Minus: %v" c
          (VExpr (EK right')) ;;
        Minus (EK c) (EK right')
    | _ => Panic (UnsupportedInputError "K.Minus" rightIn)
    end.

End ConstantArithmetic.

(** The entry in row [i], column [j] of a matrix, when there is one. *)
Definition VariableMatrix_entry (vm : list (list Var)) (i j : nat) : option Var :=
  match vm !! i with
  | Some vmRow => vmRow !! j
  | None => None
  end.

(** A matrix of [r] rows with [c] entries each. *)
Definition rectangular (vm : list (list Var)) (r c : nat) : Prop :=
  length vm = r /\ Forall (fun vmRow => length vmRow = c) vm.

(** The first pair of neighbours with different counts, as the error the
    stacking checks build from it (the list form of
    [CheckDimensionsInStack_loop], used to state what the loop computes). *)
Fixpoint first_adjacent_mismatch (Operation : string) (es : list Expression)
  (counts : list Z) : option error :=
  match es, counts with
  | e1 :: (e2 :: _) as es', c1 :: (c2 :: _) as counts' =>
      if negb (c2 =? c1) then Some (DimensionError e1 e2 Operation)
      else first_adjacent_mismatch Operation es' counts'
  | _, _ => None
  end.

(** Two more example values: a 2-by-3 matrix and a ragged one. *)
Definition vm_2x3 : VariableMatrix := [[x0; x1; x2]; [x2; x1; x0]].
Definition vm_ragged : VariableMatrix := [[x0; x1]; [x1; x2]; [x2]].

(* ================================================================== *)
(** * Properties *)
(* ================================================================== *)

(** ** Panics and indexing *)

Lemma bind_Panic {A B : Type} (c : result A) (e : error) :
  exists e', (c ;; (Panic e : result B)) = Panic e'.
Proof. destruct c; simpl; eauto. Qed.

Lemma index_neg {A : Type} (s : list A) (i : Z) :
  i < 0 -> index s i = Panic (RuntimeError "index out of range").
Proof. intros Hi. unfold index. destruct (Z.ltb_spec i 0); [reflexivity | lia]. Qed.

(** ** [ConstantMonomialIndex] and [find] *)

Lemma ConstantMonomialIndex_loop_find (ms : list Monomial) :
  forall ii : Z,
    match List.find Monomial_IsConstant ms with
    | Some m => exists k : nat,
        ConstantMonomialIndex_loop ii ms = ii + Z.of_nat k /\ ms !! k = Some m
    | None => ConstantMonomialIndex_loop ii ms = -1
    end.
Proof.
  induction ms as [|m ms IH]; intros ii; simpl.
  - reflexivity.
  - destruct (Monomial_IsConstant m) eqn:Hm.
    + exists 0%nat. split; [lia | reflexivity].
    + specialize (IH (ii + 1)).
      destruct (List.find Monomial_IsConstant ms) as [m'|].
      * destruct IH as (k & Hk & Hl). exists (S k). split; [lia | exact Hl].
      * exact IH.
Qed.

Lemma index_lookup {A : Type} (s : list A) (k : nat) (a : A) :
  s !! k = Some a -> index s (Z.of_nat k) = Ok a.
Proof.
  intros H. unfold index.
  destruct (Z.ltb_spec (Z.of_nat k) 0); [lia|].
  rewrite Nat2Z.id, H. reflexivity.
Qed.

(** With a constant monomial in [p], [Plus] of a constant appends a second
    constant monomial; the coefficients are not summed. *)
Lemma Polynomial_Plus_K_appends (p : Polynomial) (k : K) (m : Monomial) :
  Polynomial_Check p = None ->
  List.find Monomial_IsConstant (Monomials p) = Some m ->
  Polynomial_Plus p (VExpr (EK k)) =
    Ok (EPolynomial {| Monomials := (Monomials p ++ [K_ToMonomial k])%list |}).
Proof.
  intros Hc Hf.
  unfold Polynomial_Plus, Polynomial_Plus_inputs, Polynomial_Plus_switch,
    Polynomial_ConstantMonomialIndex.
  rewrite Hc. simpl.
  pose proof (ConstantMonomialIndex_loop_find (Monomials p) 0) as H.
  rewrite Hf in H. destruct H as (j & Hj & _). rewrite Hj.
  destruct (Z.eqb_spec (0 + Z.of_nat j) (-1)); [lia | reflexivity].
Qed.

(** Without a constant monomial in [p], [Plus] of a constant indexes
    [Monomials] at [-1]. *)
Lemma Polynomial_Plus_K_panics (p : Polynomial) (k : K) :
  Polynomial_Check p = None ->
  List.find Monomial_IsConstant (Monomials p) = None ->
  Polynomial_Plus p (VExpr (EK k)) = Panic (RuntimeError "index out of range").
Proof.
  intros Hc Hf.
  unfold Polynomial_Plus, Polynomial_Plus_inputs, Polynomial_Plus_switch,
    Polynomial_ConstantMonomialIndex.
  rewrite Hc. simpl.
  pose proof (ConstantMonomialIndex_loop_find (Monomials p) 0) as H.
  rewrite Hf in H. rewrite H. simpl.
  reflexivity.
Qed.

Lemma existsb_find {A : Type} (f : A -> bool) (l : list A) :
  existsb f l = match List.find f l with Some _ => true | None => false end.
Proof.
  induction l as [|a l IH]; simpl; [reflexivity|].
  destruct (f a); [reflexivity | exact IH].
Qed.

(** A [float64] operand behaves as the constant of the same value. *)
Lemma Polynomial_Plus_float64 (p : Polynomial) (f : float) :
  Polynomial_Plus p (VFloat64 f) = Polynomial_Plus p (VExpr (EK f)).
Proof.
  unfold Polynomial_Plus.
  change (Polynomial_Plus_inputs p (VFloat64 f))
    with (Polynomial_Plus_inputs p (VExpr (EK f))).
  destruct (Polynomial_Plus_inputs p (VExpr (EK f))) as [[]|err]; reflexivity.
Qed.

(** C1 (the code departs from the claim).  [Polynomial.Plus] of a constant
    [k], for every polynomial [p]: an invalid [p] panics with its error; a
    valid [p] that has a constant monomial gets [k] appended as one more
    constant monomial (nothing is summed, the term count grows); a valid
    [p] without constant monomial makes the call panic on the index [-1].
    So [1 + 2] is the polynomial of the two constant terms [1] and [2], and
    [x0 + 2] panics. *)
Theorem Polynomial_Plus_K_duplicates_constant (p : Polynomial) (k : K) :
  Polynomial_Plus p (VExpr (EK k)) =
    match Polynomial_Check p with
    | Some err => Panic err
    | None =>
        if existsb Monomial_IsConstant (Monomials p)
        then Ok (EPolynomial
                   {| Monomials := (Monomials p ++ [K_ToMonomial k])%list |})
        else Panic (RuntimeError "index out of range")
    end
  /\ Polynomial_Plus p_one (VExpr (EK 2%float)) =
       Ok (EPolynomial
             {| Monomials := [K_ToMonomial 1%float; K_ToMonomial 2%float] |})
  /\ Polynomial_Plus p_x0 (VExpr (EK 2%float)) =
       Panic (RuntimeError "index out of range").
Proof.
  split; [|split; vm_compute; reflexivity].
  destruct (Polynomial_Check p) as [err|] eqn:Hc.
  - unfold Polynomial_Plus, Polynomial_Plus_inputs. rewrite Hc. reflexivity.
  - rewrite existsb_find.
    destruct (List.find Monomial_IsConstant (Monomials p)) as [m|] eqn:Hf.
    + exact (Polynomial_Plus_K_appends p k m Hc Hf).
    + exact (Polynomial_Plus_K_panics p k Hc Hf).
Qed.

(** C2 (the code departs from the claim).  Adding zero to a polynomial
    that has no constant monomial never returns: the call panics, for the
    constant [Zero] and for the [float64] zero alike.  The valid polynomial
    [x0] is such a polynomial. *)
Theorem Polynomial_Plus_Zero_panics (p : Polynomial)
  (Hnone : existsb Monomial_IsConstant (Monomials p) = false) :
  (exists err, Polynomial_Plus p (VExpr (EK Zero)) = Panic err)
  /\ (exists err, Polynomial_Plus p (VFloat64 0%float) = Panic err).
Proof.
  assert (H : exists err, Polynomial_Plus p (VExpr (EK Zero)) = Panic err).
  { rewrite existsb_find in Hnone.
    destruct (Polynomial_Check p) as [err|] eqn:Hc.
    - exists err. unfold Polynomial_Plus, Polynomial_Plus_inputs.
      rewrite Hc. reflexivity.
    - destruct (List.find Monomial_IsConstant (Monomials p)) eqn:Hf;
        [discriminate Hnone|].
      eexists. exact (Polynomial_Plus_K_panics p Zero Hc Hf). }
  split; [exact H|].
  rewrite Polynomial_Plus_float64. exact H.
Qed.

Lemma Polynomial_Plus_Zero_panics_witness :
  existsb Monomial_IsConstant (Monomials p_x0) = false
  /\ Polynomial_Check p_x0 = None
  /\ (exists err, Polynomial_Plus p_x0 (VExpr (EK Zero)) = Panic err)
  /\ (exists err, Polynomial_Plus p_x0 (VFloat64 0%float) = Panic err).
Proof.
  split; [reflexivity|]. split; [reflexivity|].
  apply (Polynomial_Plus_Zero_panics p_x0). reflexivity.
Defined.

(** ** [Constant] *)



Lemma VariableMatrix_Dims_checked (vm : VariableMatrix) :
  VariableMatrix_Check vm = None ->
  exists row0, head vm = Some row0 /\ VariableMatrix_Dims vm = Ok [len vm; len row0].
Proof.
  intros Hc. unfold VariableMatrix_Dims. rewrite Hc.
  destruct vm as [|row0 rest]; [discriminate Hc|].
  exists row0. split; reflexivity.
Qed.





(** ** [Check] *)

Lemma VariableVector_Check_loop_ok (elts : list Var) :
  forall ii, VariableVector_Check_loop ii elts = None.
Proof. induction elts as [|v elts IH]; intros ii; simpl; [reflexivity | apply IH]. Qed.

Lemma VariableVector_Check_ok (vv : VariableVector) : VariableVector_Check vv = None.
Proof. apply VariableVector_Check_loop_ok. Qed.

(** A polynomial passes [Check] exactly when each of its monomials does. *)
Lemma Polynomial_Check_None (p : Polynomial) :
  Polynomial_Check p = None <->
  Forall (fun m => Monomial_Check m = None) (Monomials p).
Proof.
  unfold Polynomial_Check.
  induction (Monomials p) as [|m ms IH]; simpl.
  - split; [constructor | reflexivity].
  - destruct (Monomial_Check m) eqn:Hm.
    + split; [discriminate|]. intros H. inversion H; congruence.
    + rewrite IH. split; [intros H; constructor; assumption|].
      intros H. inversion H; assumption.
Qed.

Lemma VariableMatrix_Check_columns_ok (numCols : Z) (rows : list (list Var)) :
  Forall (fun vmRow => len vmRow = numCols) rows ->
  forall ii, VariableMatrix_Check_columns numCols ii rows = None.
Proof.
  induction 1 as [|vmRow rows Hrow _ IH]; intros ii; simpl; [reflexivity|].
  rewrite Hrow, Z.eqb_refl. apply IH.
Qed.

Lemma VariableMatrix_Check_row_ok (vmRow : list Var) :
  forall ii jj, VariableMatrix_Check_row ii jj vmRow = None.
Proof. induction vmRow as [|v vmRow IH]; intros ii jj; simpl; [reflexivity | apply IH]. Qed.

Lemma VariableMatrix_Check_entries_ok (rows : list (list Var)) :
  forall ii, VariableMatrix_Check_entries ii rows = None.
Proof.
  induction rows as [|vmRow rows IH]; intros ii; simpl; [reflexivity|].
  rewrite VariableMatrix_Check_row_ok. apply IH.
Qed.

(** A matrix with at least one row, all rows as long as the first, passes
    [Check]. *)
Lemma VariableMatrix_Check_rectangular (vm : VariableMatrix) (row0 : list Var) :
  head vm = Some row0 ->
  Forall (fun vmRow => length vmRow = length row0) vm ->
  VariableMatrix_Check vm = None.
Proof.
  intros Hh Hall. destruct vm as [|r rest]; [discriminate Hh|].
  injection Hh as ->. unfold VariableMatrix_Check.
  rewrite VariableMatrix_Check_columns_ok.
  - apply VariableMatrix_Check_entries_ok.
  - eapply Forall_impl; [exact Hall|]. intros vmRow Hl. unfold len. rewrite Hl.
    reflexivity.
Qed.

(** C4 (the code departs from the claim).  [Check] accepts the polynomial
    with no monomials and the variable vector with no elements: both calls
    return [nil].  Only the variable matrix with no rows is rejected, with
    [EmptyMatrixError] naming the matrix. *)
Theorem Check_accepts_empty_containers :
  Polynomial_Check {| Monomials := [] |} = None
  /\ VariableVector_Check {| Elements := [] |} = None
  /\ VariableMatrix_Check [] = Some (EmptyMatrixError (EVariableMatrix [])).
Proof. repeat split. Qed.

(** ** Scalar operands of [VariableMatrix.Plus] and [VariableMatrix.Multiply] *)

Lemma VariableMatrix_Plus_switch_panics (vm : VariableMatrix) (e : value) :
  exists err, VariableMatrix_Plus_switch vm e = Panic err.
Proof.
  unfold VariableMatrix_Plus_switch.
  destruct e as [| | |[]]; try (eexists; reflexivity).
  apply bind_Panic.
Qed.

Lemma VariableMatrix_Multiply_switch_panics (vm : VariableMatrix) (e : value) :
  exists err, VariableMatrix_Multiply_switch vm e = Panic err.
Proof.
  unfold VariableMatrix_Multiply_switch.
  destruct e as [| | |[]]; try (eexists; reflexivity).
  apply bind_Panic.
Qed.

Lemma bind_panics {A B : Type} (c : result A) (k : A -> result B) :
  (forall a, exists err, k a = Panic err) -> exists err, bind c k = Panic err.
Proof.
  intros H. destruct c as [a|err]; simpl; [apply H | eexists; reflexivity].
Qed.

Lemma VariableMatrix_Plus_panics (vm : VariableMatrix) (e : value) :
  exists err, VariableMatrix_Plus vm e = Panic err.
Proof.
  unfold VariableMatrix_Plus. apply bind_panics. intros _.
  destruct e; try apply VariableMatrix_Plus_switch_panics.
  apply bind_panics. intros _. apply VariableMatrix_Plus_switch_panics.
Qed.

Lemma VariableMatrix_Multiply_panics (vm : VariableMatrix) (e : value) :
  exists err, VariableMatrix_Multiply vm e = Panic err.
Proof.
  unfold VariableMatrix_Multiply. apply bind_panics. intros _.
  destruct e; try apply VariableMatrix_Multiply_switch_panics.
  apply bind_panics. intros _. apply VariableMatrix_Multiply_switch_panics.
Qed.

(** C3 (the code departs from the claim).  For every variable matrix and
    every scalar constant, [Plus] and [Multiply] abort: neither returns a
    matrix.  On the valid 2-by-2 matrix the panic is the
    [UnsupportedInputError] that closes the method, raised after the
    entrywise results were built and dropped. *)
Theorem VariableMatrix_scalar_operand_aborts (vm : VariableMatrix) (k : K) :
  (exists err, VariableMatrix_Plus vm (VExpr (EK k)) = Panic err)
  /\ (exists err, VariableMatrix_Multiply vm (VExpr (EK k)) = Panic err)
  /\ VariableMatrix_Check vm_2x2 = None
  /\ VariableMatrix_Plus vm_2x2 (VExpr (EK 1%float)) =
       Panic (UnsupportedInputError "VariableMatrix.Plus" (VExpr (EK 1%float)))
  /\ VariableMatrix_Multiply vm_2x2 (VExpr (EK 1%float)) =
       Panic (UnsupportedInputError "VariableMatrix.Multiply" (VExpr (EK 1%float))).
Proof.
  split; [apply VariableMatrix_Plus_panics|].
  split; [apply VariableMatrix_Multiply_panics|].
  repeat split; vm_compute; reflexivity.
Qed.

(** ** Dimension checks *)

Lemma index_0 {A : Type} (a : A) (s : list A) : index (a :: s) 0 = Ok a.
Proof. reflexivity. Qed.

Lemma index_1 {A : Type} (a b : A) (s : list A) : index (a :: b :: s) 1 = Ok b.
Proof. reflexivity. Qed.

Ltac step_index :=
  cbn [bind]; repeat (first [rewrite index_0 | rewrite index_1]; cbn [bind]).

(** Two variable vectors of lengths other than one: [Multiply] runs the
    dimension check and aborts with [DimensionError] naming the operation
    and both operands. *)
Lemma VariableVector_Multiply_DimensionError (vv w : VariableVector) :
  VariableVector_Len vv <> 1 ->
  VariableVector_Len w <> 1 ->
  VariableVector_Multiply vv (VExpr (EVariableVector w)) =
    Panic (DimensionError (EVariableVector vv) (EVariableVector w) "Multiply").
Proof.
  intros Hv Hw. unfold VariableVector_Multiply.
  rewrite VariableVector_Check_ok. cbn [must bind IsExpression IsScalarExpression
    IsVectorExpression orb ToExpression ToVectorExpression fst].
  unfold smErrors.CheckDimensionsInMultiplication, smErrors.IsScalarExpression,
    Dims, VariableVector_Dims.
  step_index.
  assert (E1 : (1 =? VariableVector_Len w) = false) by (apply Z.eqb_neq; congruence).
  assert (E2 : (VariableVector_Len vv =? 1) = false) by (apply Z.eqb_neq; congruence).
  assert (E3 : (VariableVector_Len w =? 1) = false) by (apply Z.eqb_neq; congruence).
  rewrite E1, E2, E3. reflexivity.
Qed.

(** The addition check on two variable vectors of different lengths, none
    of length one, returns [DimensionError]. *)
Lemma CheckDimensionsInAddition_vectors (vv w : VariableVector) :
  VariableVector_Len vv <> VariableVector_Len w ->
  VariableVector_Len vv <> 1 ->
  VariableVector_Len w <> 1 ->
  smErrors.CheckDimensionsInAddition (EVariableVector vv) (EVariableVector w) =
    Ok (Some (DimensionError (EVariableVector vv) (EVariableVector w) "Plus")).
Proof.
  intros Hd Hv Hw.
  unfold smErrors.CheckDimensionsInAddition, smErrors.IsScalarExpression,
    Dims, VariableVector_Dims.
  step_index.
  assert (E1 : (VariableVector_Len vv =? VariableVector_Len w) = false)
    by (apply Z.eqb_neq; congruence).
  assert (E2 : (VariableVector_Len vv =? 1) = false) by (apply Z.eqb_neq; congruence).
  assert (E3 : (VariableVector_Len w =? 1) = false) by (apply Z.eqb_neq; congruence).
  rewrite E1, E2, E3. reflexivity.
Qed.

(** C5 (the code departs from the claim).  [VariableVector.Plus] never
    raises a [DimensionError]: for every receiver and every operand it
    aborts with another error.  For the vectors of lengths 2 and 3, whose
    shapes the addition check rejects, the panic is the "Unrecognized
    expression type" error. *)
Theorem VariableVector_Plus_no_DimensionError (vv : VariableVector) (rightIn : value) :
  (exists err, VariableVector_Plus vv rightIn = Panic err
               /\ is_DimensionError err = false)
  /\ smErrors.CheckDimensionsInAddition (EVariableVector vv_01) (EVariableVector vv_012)
     = Ok (Some (DimensionError (EVariableVector vv_01) (EVariableVector vv_012) "Plus"))
  /\ VariableVector_Plus vv_01 (VExpr (EVariableVector vv_012)) =
       Panic (Errorf
         "Unrecognized expression type %T for addition of VariableVector vv.Plus(%v)!"
         [FValue (VExpr (EVariableVector vv_012));
          FValue (VExpr (EVariableVector vv_012))]).
Proof.
  split.
  - unfold VariableVector_Plus. rewrite VariableVector_Check_ok. simpl.
    eexists. split; reflexivity.
  - split; vm_compute; reflexivity.
Qed.

(** ** [Comparison] *)

Lemma K_Comparison_broadcast_repeat (c : K) (n : nat) :
  forall kAsKVector,
    K_Comparison_broadcast c n kAsKVector = (kAsKVector ++ repeat c n)%list.
Proof.
  induction n as [|n IH]; intros acc; simpl.
  - rewrite app_nil_r. reflexivity.
  - rewrite IH, <- app_assoc. reflexivity.
Qed.

(** A constant compared with a valid constant vector of length [n]: the
    constant side of the [VectorConstraint] is the vector of [n] copies. *)
Lemma K_Comparison_KVector (c : K) (kv : KVector) (sense : ConstrSense) :
  kv <> [] ->
  K_Comparison c (VExpr (EKVector kv)) sense =
    Ok (VectorConstraint (EKVector (repeat c (length kv))) (EKVector kv) sense).
Proof.
  intros Hne. destruct kv as [|k kv]; [congruence|].
  unfold K_Comparison, K_Comparison_inputs, K_Comparison_switch.
  cbn [IsExpression IsScalarExpression IsVectorExpression orb ToExpression
       ToVectorExpression fst Expression_Check KVector_Check must bind].
  rewrite K_Comparison_broadcast_repeat. reflexivity.
Qed.

(** The same against a variable vector. *)
Lemma K_Comparison_VariableVector (c : K) (vv : VariableVector) (sense : ConstrSense) :
  K_Comparison c (VExpr (EVariableVector vv)) sense =
    Ok (VectorConstraint (EKVector (repeat c (length (Elements vv))))
                         (EVariableVector vv) sense).
Proof.
  unfold K_Comparison, K_Comparison_inputs, K_Comparison_switch.
  cbn [IsExpression IsScalarExpression IsVectorExpression orb ToExpression
       ToVectorExpression bind fst Expression_Check].
  rewrite VariableVector_Check_ok. cbn [must bind].
  rewrite K_Comparison_broadcast_repeat. reflexivity.
Qed.

(** Two variable vectors of different lengths: the comparison aborts with
    the formatted error that names the sense and both lengths (an error
    built by [fmt.Errorf], not the struct [DimensionError]). *)
Lemma VariableVector_Comparison_mismatch (vv w : VariableVector) (sense : ConstrSense) :
  VariableVector_Len vv <> VariableVector_Len w ->
  VariableVector_Comparison vv (VExpr (EVariableVector w)) sense =
    Panic (Errorf
      "The two inputs to comparison '%v' must have the same dimension, but #1 has dimension %v and #2 has dimension %v!"
      [FSense sense; FInt (VariableVector_Len vv); FInt (VariableVector_Len w)]).
Proof.
  intros Hd. unfold VariableVector_Comparison.
  destruct (Z.eqb_spec (VariableVector_Len vv) (VariableVector_Len w));
    [congruence | reflexivity].
Qed.

(** Two variable vectors of the same length: the constraint carries the
    two operands as they are. *)
Lemma VariableVector_Comparison_same_length (vv w : VariableVector) (sense : ConstrSense) :
  VariableVector_Len vv = VariableVector_Len w ->
  VariableVector_Comparison vv (VExpr (EVariableVector w)) sense =
    Ok (VectorConstraint (EVariableVector vv) (EVariableVector w) sense).
Proof.
  intros Hd. unfold VariableVector_Comparison.
  rewrite Hd, Z.eqb_refl. reflexivity.
Qed.

(** C6 (the code departs from the claim).  [VariableVector.Comparison]
    against a scalar, a [K] or a [float64], produces no constraint: for
    every vector it aborts with the "not implemented yet" error.  (The
    broadcast exists only with the constant as the receiver, see
    [K_Comparison_VariableVector].) *)
Theorem VariableVector_Comparison_scalar_aborts
  (vv : VariableVector) (k : K) (sense : ConstrSense) :
  VariableVector_Comparison vv (VExpr (EK k)) sense =
    Panic (Errorf
      "The Eq() method for VariableVector is not implemented yet for type %T!"
      [FValue (VExpr (EK k))])
  /\ VariableVector_Comparison vv (VFloat64 k) sense =
       Panic (Errorf
         "The Eq() method for VariableVector is not implemented yet for type %T!"
         [FValue (VFloat64 k)]).
Proof. split; reflexivity. Qed.

(** ** [Variables] *)

Lemma existsb_ID (v : Var) (vs : list Var) :
  existsb (fun w => N.eqb (ID w) (ID v)) vs = true <-> In (ID v) (map ID vs).
Proof.
  rewrite existsb_exists, in_map_iff. split.
  - intros (w & Hw & He). apply N.eqb_eq in He. exists w. split; assumption.
  - intros (w & He & Hw). exists w. split; [assumption | apply N.eqb_eq; assumption].
Qed.

Lemma UniqueVars_from_spec (varsIn : list Var) :
  forall varsOut,
    NoDup (map ID varsOut) ->
    NoDup (map ID (UniqueVars_from varsOut varsIn))
    /\ forall i, In i (map ID (UniqueVars_from varsOut varsIn)) <->
                 In i (map ID varsOut) \/ In i (map ID varsIn).
Proof.
  induction varsIn as [|v rest IH]; intros varsOut Hnd; simpl.
  - split; [assumption | intros i; tauto].
  - destruct (existsb (fun w => N.eqb (ID w) (ID v)) varsOut) eqn:He.
    + apply existsb_ID in He.
      destruct (IH varsOut Hnd) as [H1 H2]. split; [assumption|].
      intros i. rewrite H2. intuition (subst; auto).
    + assert (Hni : ~ In (ID v) (map ID varsOut)).
      { intros Hin. apply existsb_ID in Hin. congruence. }
      assert (Hnd' : NoDup (map ID (varsOut ++ [v])%list)).
      { rewrite map_app. simpl. apply NoDup_app. repeat split.
        - assumption.
        - intros x Hx Hx'. apply list_elem_of_In in Hx, Hx'.
          destruct Hx' as [<-|[]]. contradiction.
        - apply NoDup_cons. split; [|constructor].
          intros Hx. apply list_elem_of_In in Hx. destruct Hx. }
      destruct (IH _ Hnd') as [H1 H2]. split; [assumption|].
      intros i. rewrite H2, map_app, in_app_iff. simpl. tauto.
Qed.

(** [UniqueVars] returns every identity of its input exactly once. *)
Lemma UniqueVars_spec (varsIn : list Var) :
  NoDup (map ID (UniqueVars varsIn))
  /\ forall i, In i (map ID (UniqueVars varsIn)) <-> In i (map ID varsIn).
Proof.
  destruct (UniqueVars_from_spec varsIn [] (NoDup_nil_2 (A:=N))) as [H1 H2].
  split; [exact H1|]. intros i. rewrite (H2 i). simpl. tauto.
Qed.

(** [Polynomial.Variables] and [VariableMatrix.Variables] go through
    [UniqueVars]: no identity is repeated. *)
Lemma Polynomial_Variables_NoDup (p : Polynomial) :
  NoDup (map ID (Polynomial_Variables p)).
Proof. apply UniqueVars_spec. Qed.

Lemma VariableMatrix_Variables_NoDup (vm : VariableMatrix) (vs : list Var) :
  VariableMatrix_Variables vm = Ok vs -> NoDup (map ID vs).
Proof.
  unfold VariableMatrix_Variables.
  destruct (VariableMatrix_Check vm); simpl; [discriminate|].
  intros [= <-]. apply UniqueVars_spec.
Qed.

(** C8 (the code departs from the claim).  [VariableVector.Variables]
    returns the elements as they are, for every vector: on the valid vector
    [[x0, x0]] the identity of [x0] appears twice in the result. *)
Theorem VariableVector_Variables_repeats (vv : VariableVector) :
  VariableVector_Variables vv = Elements vv
  /\ VariableVector_Check vv_00 = None
  /\ VariableVector_Variables vv_00 = [x0; x0]
  /\ ~ NoDup (map ID (VariableVector_Variables vv_00)).
Proof.
  repeat split.
  intros H. inversion H as [|i l Hin _]; subst. apply Hin. left.
Qed.

(** ** [Transpose] *)

(** C10.  [Transpose] of a variable vector of length [n] is the receiver
    itself, and its dimensions are still [n, 1]. *)
Theorem VariableVector_Transpose_is_receiver (vv : VariableVector) :
  VariableVector_Transpose vv = EVariableVector vv
  /\ Dims (VariableVector_Transpose vv) = Ok [Z.of_nat (length (Elements vv)); 1]
  /\ VariableVector_Dims vv = [Z.of_nat (length (Elements vv)); 1].
Proof. repeat split. Qed.

(** ** Receivers and backing arrays *)

(** The loop of [Polynomial.Multiply] overwrites the cells of the backing
    array in place: with the cells [done] already visited and the cells
    [todo] still to visit, it ends with [todo] scaled. *)
Lemma Polynomial_Multiply_loop_K (k : K) (p : Mem.PolynomialHdr)
  (todo : list Monomial) :
  forall (done rest : list Monomial) (h : Mem.heap),
    h !! Mem.s_array (Mem.MonomialsHdr p) = Some (done ++ todo ++ rest)%list ->
    Mem.s_len (Mem.MonomialsHdr p) = (length done + length todo)%nat ->
    Mem.Polynomial_Multiply_loop (EK k) p (length todo) (Z.of_nat (length done)) h =
      Ok (<[Mem.s_array (Mem.MonomialsHdr p) :=
              (done ++ map (scaled k) todo ++ rest)%list]> h).
Proof.
  set (s := Mem.MonomialsHdr p).
  induction todo as [|m todo IH]; intros done rest h Harr Hlen.
  - cbn [length Mem.Polynomial_Multiply_loop map].
    rewrite list_insert_id; [reflexivity | exact Harr].
  - cbn [length Mem.Polynomial_Multiply_loop]. fold s.
    assert (Hc : Mem.contents h s = (done ++ m :: todo)%list).
    { unfold Mem.contents. rewrite Harr. cbn [default from_option id]. rewrite Hlen.
      replace (done ++ (m :: todo) ++ rest)%list
        with ((done ++ m :: todo) ++ rest)%list
        by (rewrite <- app_assoc; reflexivity).
      apply take_app_length'. rewrite length_app. reflexivity. }
    assert (Hi : Mem.slice_index h s (Z.of_nat (length done)) = Ok m).
    { unfold Mem.slice_index. rewrite Hc. apply index_lookup.
      apply list_lookup_middle. reflexivity. }
    rewrite Hi. cbn [bind Mem.Monomial_Multiply as_Monomial].
    assert (Hs : Mem.slice_store h s (Z.of_nat (length done)) (scaled k m) =
                 Ok (<[Mem.s_array s := (done ++ scaled k m :: todo ++ rest)%list]> h)).
    { unfold Mem.slice_store. rewrite Hc, Harr. cbn [default from_option id].
      destruct (Z.ltb_spec (Z.of_nat (length done)) 0); [lia|].
      destruct (Z.leb_spec (Z.of_nat (length (done ++ m :: todo)))
                           (Z.of_nat (length done))) as [Hle|_].
      { rewrite length_app in Hle. simpl in Hle. lia. }
      cbn [orb]. rewrite Nat2Z.id.
      rewrite insert_app_r_alt by lia. rewrite Nat.sub_diag. reflexivity. }
    change {| Coefficient := PrimFloat.mul (Coefficient m) k;
              VariableFactors := VariableFactors m;
              Exponents := Exponents m |} with (scaled k m).
    rewrite Hs. cbn [bind].
    specialize (IH (done ++ [scaled k m])%list rest
                   (<[Mem.s_array s := (done ++ scaled k m :: todo ++ rest)%list]> h)).
    rewrite length_app in IH. cbn [length] in IH.
    replace (Z.of_nat (length done) + 1) with (Z.of_nat (length done + 1)) by lia.
    rewrite IH.
    + rewrite list_insert_insert_eq. rewrite <- app_assoc. reflexivity.
    + rewrite list_lookup_insert_eq by (eapply lookup_lt_Some; exact Harr).
      rewrite <- app_assoc. reflexivity.
    + rewrite Hlen. simpl. lia.
Qed.

(** [Polynomial.Multiply] by a constant returns the receiver's own header,
    and the receiver, read after the call, shows every monomial scaled. *)
Lemma Polynomial_Multiply_K_overwrites (h : Mem.heap) (p : Mem.PolynomialHdr) (k : K) :
  Mem.wf h (Mem.MonomialsHdr p) ->
  Polynomial_Check (Mem.view h p) = None ->
  exists h',
    Mem.Polynomial_Multiply h p (VExpr (EK k)) = Ok (p, h')
    /\ Mem.view h' p =
         {| Monomials := map (scaled k) (Monomials (Mem.view h p)) |}.
Proof.
  intros (arr & Harr & Hcap & Hlen) Hc.
  set (s := Mem.MonomialsHdr p) in *.
  pose proof (take_drop (Mem.s_len s) arr) as Hsplit.
  assert (Hl : length (take (Mem.s_len s) arr) = Mem.s_len s)
    by (apply length_take_le; lia).
  pose proof (Polynomial_Multiply_loop_K k p (take (Mem.s_len s) arr) []
                (drop (Mem.s_len s) arr) h) as Hloop.
  cbn [app length] in Hloop. change (Z.of_nat 0) with 0 in Hloop. fold s in Hloop.
  rewrite Hsplit, Hl in Hloop.
  specialize (Hloop Harr eq_refl).
  eexists. split.
  - unfold Mem.Polynomial_Multiply, Mem.Polynomial_Multiply_inputs,
      Mem.Polynomial_Multiply_switch.
    rewrite Hc. fold s.
    cbn [must bind IsExpression IsScalarExpression orb ToExpression
         ToScalarExpression negb fst].
    unfold smErrors.CheckDimensionsInMultiplication, smErrors.IsScalarExpression,
      Dims, Polynomial_Dims, K_Dims.
    step_index. cbn [Z.eqb Pos.eqb orb andb negb must bind].
    rewrite Hloop. reflexivity.
  - unfold Mem.view, Mem.contents. fold s. f_equal.
    rewrite list_lookup_insert_eq by (eapply lookup_lt_Some; exact Harr).
    rewrite Harr. cbn [default from_option id].
    rewrite take_app_length' by (rewrite length_map; symmetry; exact Hl).
    reflexivity.
Qed.

(** [Polynomial.Plus] of a constant, when it returns, leaves the receiver
    as it was: the appended monomial lies beyond the receiver's length or
    in a new array. *)
Lemma Polynomial_Plus_K_keeps_receiver (h h' : Mem.heap)
  (p q : Mem.PolynomialHdr) (k : K) :
  Mem.wf h (Mem.MonomialsHdr p) ->
  Mem.Polynomial_Plus_K h p k = Ok (q, h') ->
  Mem.view h' p = Mem.view h p.
Proof.
  intros (arr & Harr & Hcap & Hlen).
  set (s := Mem.MonomialsHdr p) in *.
  unfold Mem.Polynomial_Plus_K. fold s.
  destruct (Polynomial_Plus_inputs (Mem.view h p) (VExpr (EK k))); [|discriminate].
  cbn [bind].
  destruct (Polynomial_ConstantMonomialIndex (Mem.view h p)) as [ci|] eqn:Hci;
    [|discriminate].
  cbn [bind].
  destruct (Z.eqb_spec ci (-1)) as [->|Hne]; cbn [negb].
  - unfold Mem.slice_index. rewrite index_neg by lia. discriminate.
  - intros [= <- <-]. unfold Mem.view, Mem.contents, Mem.slice_append. fold s.
    f_equal. rewrite Harr. cbn [default from_option id].
    destruct (Nat.ltb_spec (Mem.s_len s) (Mem.s_cap s)) as [Hlt|Hge]; cbn [snd].
    + rewrite list_lookup_insert_eq by (eapply lookup_lt_Some; exact Harr).
      cbn [default from_option id]. apply take_insert_ge. lia.
    + rewrite lookup_app_l by (eapply lookup_lt_Some; exact Harr).
      rewrite Harr. reflexivity.
Qed.

(** C9 (the code departs from the claim).  The polynomial [2 * x0] is
    multiplied by the constant [3].  The call returns the receiver's own
    slice header, and the receiver the caller still holds now reads
    [6 * x0]: its coefficient was overwritten through the shared backing
    array. *)
Theorem Polynomial_Multiply_overwrites_receiver :
  Mem.view h_2x0 hdr_2x0 = {| Monomials := [m_2x0] |}
  /\ exists h',
       Mem.Polynomial_Multiply h_2x0 hdr_2x0 (VExpr (EK 3%float)) = Ok (hdr_2x0, h')
       /\ Mem.view h' hdr_2x0 = {| Monomials := [m_6x0] |}
       /\ Mem.view h' hdr_2x0 <> Mem.view h_2x0 hdr_2x0.
Proof.
  split; [reflexivity|].
  exists [[m_6x0]]. split; [vm_compute; reflexivity|].
  split; [reflexivity|].
  intros H.
  apply (f_equal (fun q => match Monomials q with
                           | m :: _ => PrimFloat.leb (Coefficient m) 3%float
                           | [] => true
                           end)) in H.
  vm_compute in H. discriminate H.
Qed.

(* ================================================================== *)
(** * Further properties of the code *)
(* ================================================================== *)

(** ** [VariableMatrix.Check] and [VariableMatrix.Dims] *)

Lemma VariableMatrix_Check_columns_sound (numCols : Z) (rows : list (list Var)) :
  forall ii,
    VariableMatrix_Check_columns numCols ii rows = None ->
    Forall (fun vmRow => len vmRow = numCols) rows.
Proof.
  induction rows as [|vmRow rows IH]; intros ii H; [constructor|].
  simpl in H. destruct (Z.eqb_spec (len vmRow) numCols) as [He|Hne];
    simpl in H; [|discriminate H].
  constructor; [exact He | exact (IH _ H)].
Qed.

Lemma VariableMatrix_Check_sound (vm : VariableMatrix) :
  VariableMatrix_Check vm = None ->
  exists row0, head vm = Some row0 /\ rectangular vm (length vm) (length row0).
Proof.
  intros Hc. destruct vm as [|row0 rest]; [discriminate Hc|].
  exists row0. split; [reflexivity|]. split; [reflexivity|].
  unfold VariableMatrix_Check in Hc.
  destruct (VariableMatrix_Check_columns (len row0) 0 (row0 :: rest)) eqn:Hcols;
    [discriminate Hc|].
  apply VariableMatrix_Check_columns_sound in Hcols.
  eapply Forall_impl; [exact Hcols|]. intros r Hr. unfold len in Hr. lia.
Qed.

Lemma VariableMatrix_Dims_sound (vm : list (list Var)) (d : list Z) :
  VariableMatrix_Dims vm = Ok d ->
  exists row0,
    head vm = Some row0
    /\ d = [Z.of_nat (length vm); Z.of_nat (length row0)]
    /\ Forall (fun vmRow => length vmRow = length row0) vm.
Proof.
  intros Hd. unfold VariableMatrix_Dims in Hd.
  destruct (VariableMatrix_Check vm) as [err|] eqn:Hc; [discriminate Hd|].
  destruct (VariableMatrix_Check_sound vm Hc) as (row0 & Hh & _ & Hall).
  exists row0. split; [exact Hh|]. split; [|exact Hall].
  destruct vm as [|r rest]; [discriminate Hh|].
  injection Hh as ->. cbn [must bind] in Hd. rewrite index_0 in Hd.
  cbn [bind] in Hd. injection Hd as <-. reflexivity.
Qed.

(** X1.  When [Dims] returns, the matrix has at least one row, the result
    is the pair of the number of rows and the length of the first row, and
    every row has that length. *)
Theorem VariableMatrix_Dims_shape (vm : VariableMatrix) (d : list Z)
  (Hd : VariableMatrix_Dims vm = Ok d) :
  exists row0,
    head vm = Some row0
    /\ d = [Z.of_nat (length vm); Z.of_nat (length row0)]
    /\ Forall (fun vmRow => length vmRow = length row0) vm.
Proof. exact (VariableMatrix_Dims_sound vm d Hd). Qed.

Lemma VariableMatrix_Dims_shape_witness :
  VariableMatrix_Dims vm_2x3 = Ok [2; 3]
  /\ exists row0,
       head vm_2x3 = Some row0
       /\ [2; 3] = [Z.of_nat (length vm_2x3); Z.of_nat (length row0)]
       /\ Forall (fun vmRow => length vmRow = length row0) vm_2x3.
Proof.
  split; [reflexivity|].
  apply (VariableMatrix_Dims_shape vm_2x3 [2; 3]). reflexivity.
Defined.

Lemma VariableMatrix_Check_columns_app (numCols : Z) (good : list (list Var))
  (bad : list Var) (rest : list (list Var)) :
  Forall (fun vmRow => len vmRow = numCols) good ->
  len bad <> numCols ->
  forall ii,
    VariableMatrix_Check_columns numCols ii (good ++ bad :: rest) =
      Some (MatrixColumnMismatchError numCols (len bad) (ii + len good)).
Proof.
  intros Hgood Hbad.
  induction Hgood as [|vmRow good Hrow _ IH]; intros ii.
  - simpl. destruct (Z.eqb_spec (len bad) numCols); [congruence|].
    simpl. unfold len. simpl. rewrite Z.add_0_r. reflexivity.
  - cbn [app VariableMatrix_Check_columns]. rewrite Hrow, Z.eqb_refl.
    cbn [negb]. rewrite IH. unfold len. cbn [length]. do 2 f_equal. lia.
Qed.

(** X2.  A ragged matrix: when the rows before row [k] are as long as the
    first row and row [k] is not, [Check] returns the column-mismatch error
    with the expected count (the length of the first row), the actual
    count, and [k] as the offending row. *)
Theorem VariableMatrix_Check_ragged (row0 : list Var) (good : list (list Var))
  (bad : list Var) (rest : list (list Var))
  (Hgood : Forall (fun vmRow => length vmRow = length row0) good)
  (Hbad : length bad <> length row0) :
  VariableMatrix_Check ((row0 :: good) ++ bad :: rest)%list =
    Some (MatrixColumnMismatchError (Z.of_nat (length row0))
            (Z.of_nat (length bad)) (Z.of_nat (length (row0 :: good)))).
Proof.
  cbn [app VariableMatrix_Check].
  change (row0 :: (good ++ bad :: rest)%list)
    with ((row0 :: good) ++ bad :: rest)%list.
  rewrite VariableMatrix_Check_columns_app.
  - reflexivity.
  - constructor; [reflexivity|].
    eapply Forall_impl; [exact Hgood|]. intros r Hr. unfold len. rewrite Hr.
    reflexivity.
  - unfold len. lia.
Qed.

Lemma VariableMatrix_Check_ragged_witness :
  VariableMatrix_Check vm_ragged = Some (MatrixColumnMismatchError 2 1 2).
Proof.
  apply (VariableMatrix_Check_ragged [x0; x1] [[x1; x2]] [x2] []).
  - repeat constructor.
  - discriminate.
Defined.

(** ** [VariableMatrix.Transpose] *)

Lemma store_nat {A : Type} (s : list A) (k : nat) (x : A) :
  (k < length s)%nat -> store s (Z.of_nat k) x = Ok (<[k := x]> s).
Proof.
  intros Hk. unfold store.
  destruct (Z.ltb_spec (Z.of_nat k) 0); [lia|].
  rewrite Nat2Z.id.
  destruct (Nat.ltb_spec k (length s)); [reflexivity | lia].
Qed.

Lemma VariableMatrix_Transpose_alloc_replicate (n : nat) (nRows : Z) :
  forall vmOut,
    VariableMatrix_Transpose_alloc n nRows vmOut =
      (vmOut ++ replicate n (replicate (Z.to_nat nRows) Variable_zero))%list.
Proof.
  induction n as [|n IH]; intros vmOut; simpl.
  - rewrite app_nil_r. reflexivity.
  - rewrite IH, <- app_assoc. reflexivity.
Qed.

Lemma rectangular_replicate (r c : nat) (v : Var) :
  rectangular (replicate r (replicate c v)) r c.
Proof.
  split; [apply length_replicate|].
  apply Forall_replicate, length_replicate.
Qed.

Lemma rectangular_lookup (vm : list (list Var)) (r c i : nat) (vmRow : list Var) :
  rectangular vm r c -> vm !! i = Some vmRow -> length vmRow = c.
Proof.
  intros [_ Hall] Hl. exact (Forall_lookup_1 _ _ _ _ Hall Hl).
Qed.

Lemma rectangular_insert (vm : list (list Var)) (r c i : nat) (vmRow : list Var) :
  rectangular vm r c -> length vmRow = c -> rectangular (<[i := vmRow]> vm) r c.
Proof.
  intros [Hlen Hall] Hrow. split; [rewrite length_insert; exact Hlen|].
  apply Forall_insert; assumption.
Qed.

(** The inner loop of [Transpose] copies row [i] of [vm] into column [i]
    of [vmOut], from row [jj] of [vmOut] on, and changes nothing else. *)
Lemma VariableMatrix_Transpose_inner_spec (vm : list (list Var)) (nR nC i : nat)
  (r : list Var) :
  vm !! i = Some r -> length r = nC -> (i < nR)%nat ->
  forall (n jj : nat) (vmOut : list (list Var)),
    (jj + n = nC)%nat ->
    rectangular vmOut nC nR ->
    exists vmOut',
      VariableMatrix_Transpose_inner vm (Z.of_nat i) n (Z.of_nat jj) vmOut = Ok vmOut'
      /\ rectangular vmOut' nC nR
      /\ forall a b,
           VariableMatrix_entry vmOut' a b =
             if decide (b = i /\ (jj <= a)%nat) then r !! a
             else VariableMatrix_entry vmOut a b.
Proof.
  intros Hr Hlen Hi.
  induction n as [|n IH]; intros jj vmOut Hjj Hrect.
  - exists vmOut. split; [reflexivity|]. split; [exact Hrect|].
    intros a b. destruct (decide (b = i /\ (jj <= a)%nat)) as [[-> Ha]|]; [|reflexivity].
    rewrite (lookup_ge_None_2 r a) by lia.
    unfold VariableMatrix_entry.
    destruct Hrect as [Hl _].
    rewrite (lookup_ge_None_2 vmOut a) by lia. reflexivity.
  - cbn [VariableMatrix_Transpose_inner].
    rewrite (index_lookup _ _ _ Hr). cbn [bind].
    destruct (lookup_lt_is_Some_2 r jj) as [v Hv]; [lia|].
    rewrite (index_lookup _ _ _ Hv). cbn [bind].
    destruct (lookup_lt_is_Some_2 vmOut jj) as [outRow HoutRow];
      [destruct Hrect as [Hl _]; lia|].
    rewrite (index_lookup _ _ _ HoutRow). cbn [bind].
    pose proof (rectangular_lookup _ _ _ _ _ Hrect HoutRow) as HoutLen.
    rewrite store_nat by lia. cbn [bind].
    rewrite store_nat by (destruct Hrect as [Hl _]; lia). cbn [bind].
    replace (Z.of_nat jj + 1) with (Z.of_nat (S jj)) by lia.
    destruct (IH (S jj) (<[jj := <[i := v]> outRow]> vmOut)) as (vmOut' & Hrun & Hrect' & Hent).
    + lia.
    + apply rectangular_insert; [exact Hrect|]. rewrite length_insert. exact HoutLen.
    + exists vmOut'. split; [exact Hrun|]. split; [exact Hrect'|].
      intros a b. rewrite Hent.
      destruct (decide (b = i /\ (S jj <= a)%nat)) as [[-> Ha]|Hn1].
      * rewrite decide_True by (split; [reflexivity | lia]). reflexivity.
      * unfold VariableMatrix_entry.
        destruct (decide (a = jj)) as [->|Hne].
        -- rewrite list_lookup_insert_eq by (destruct Hrect as [Hl _]; lia).
           rewrite HoutRow.
           destruct (decide (b = i)) as [->|Hbi].
           ++ rewrite decide_True by (split; [reflexivity | lia]).
              rewrite list_lookup_insert_eq by lia. symmetry. exact Hv.
           ++ rewrite decide_False by tauto.
              apply list_lookup_insert_ne. congruence.
        -- rewrite list_lookup_insert_ne by congruence.
           rewrite decide_False; [reflexivity|].
           intros [-> Ha]. apply Hn1. split; [reflexivity | lia].
Qed.

(** The outer loop fills the columns [ii], [ii + 1], ... of [vmOut] with
    the rows of [vm]. *)
Lemma VariableMatrix_Transpose_outer_spec (vm : list (list Var)) (nR nC : nat) :
  rectangular vm nR nC ->
  forall (n ii : nat) (vmOut : list (list Var)),
    (ii + n = nR)%nat ->
    rectangular vmOut nC nR ->
    exists vmOut',
      VariableMatrix_Transpose_outer vm (Z.of_nat nC) n (Z.of_nat ii) vmOut = Ok vmOut'
      /\ rectangular vmOut' nC nR
      /\ forall a b,
           VariableMatrix_entry vmOut' a b =
             if decide (ii <= b)%nat then VariableMatrix_entry vm b a
             else VariableMatrix_entry vmOut a b.
Proof.
  intros Hvm.
  induction n as [|n IH]; intros ii vmOut Hii Hrect.
  - exists vmOut. split; [reflexivity|]. split; [exact Hrect|].
    intros a b. destruct (decide (ii <= b)%nat) as [Hb|]; [|reflexivity].
    unfold VariableMatrix_entry.
    destruct Hvm as [Hl _].
    rewrite (lookup_ge_None_2 vm b) by lia.
    destruct (vmOut !! a) as [outRow|] eqn:Ha; [|reflexivity].
    pose proof (rectangular_lookup _ _ _ _ _ Hrect Ha).
    apply lookup_ge_None_2. lia.
  - cbn [VariableMatrix_Transpose_outer]. rewrite Nat2Z.id.
    destruct (lookup_lt_is_Some_2 vm ii) as [r Hr]; [destruct Hvm as [Hl _]; lia|].
    pose proof (rectangular_lookup _ _ _ _ _ Hvm Hr) as Hrlen.
    destruct (VariableMatrix_Transpose_inner_spec vm nR nC ii r Hr Hrlen
                ltac:(lia) nC 0%nat vmOut ltac:(lia) Hrect)
      as (vmOut1 & Hrun1 & Hrect1 & Hent1).
    change (Z.of_nat 0) with 0 in Hrun1. rewrite Hrun1. cbn [bind].
    replace (Z.of_nat ii + 1) with (Z.of_nat (S ii)) by lia.
    destruct (IH (S ii) vmOut1 ltac:(lia) Hrect1) as (vmOut' & Hrun & Hrect' & Hent).
    exists vmOut'. split; [exact Hrun|]. split; [exact Hrect'|].
    intros a b. rewrite Hent, Hent1.
    destruct (decide (S ii <= b)%nat) as [Hb|Hb].
    + rewrite decide_True by lia. reflexivity.
    + destruct (decide (b = ii)) as [->|Hne].
      * rewrite decide_True by (split; [reflexivity | lia]).
        rewrite decide_True by lia.
        unfold VariableMatrix_entry. rewrite Hr. reflexivity.
      * rewrite decide_False by tauto. rewrite decide_False by lia. reflexivity.
Qed.

(** What [Transpose] returns on a matrix that passes [Check]: a matrix of
    as many rows as [vm] has columns, each as long as [vm] has rows, with
    the entries mirrored. *)
Lemma VariableMatrix_Transpose_spec (vm : list (list Var)) (row0 : list Var) :
  VariableMatrix_Check vm = None ->
  head vm = Some row0 ->
  exists vmOut : list (list Var),
    VariableMatrix_Transpose vm = Ok (EVariableMatrix vmOut)
    /\ rectangular vmOut (length row0) (length vm)
    /\ forall i j, VariableMatrix_entry vmOut j i = VariableMatrix_entry vm i j.
Proof.
  intros Hc Hh.
  destruct (VariableMatrix_Check_sound vm Hc) as (r0 & Hh' & Hrect).
  rewrite Hh in Hh'. injection Hh' as <-.
  destruct (VariableMatrix_Dims_checked vm Hc) as (r0 & Hh' & Hd).
  rewrite Hh in Hh'. injection Hh' as <-.
  unfold VariableMatrix_Transpose. rewrite Hc, Hd. cbn [must bind].
  rewrite index_0. cbn [bind]. rewrite index_1. cbn [bind].
  unfold len. rewrite !Nat2Z.id.
  rewrite VariableMatrix_Transpose_alloc_replicate, Nat2Z.id. cbn [app].
  destruct (VariableMatrix_Transpose_outer_spec vm (length vm) (length row0) Hrect
              (length vm) 0%nat
              (replicate (length row0) (replicate (length vm) Variable_zero))
              ltac:(lia) (rectangular_replicate _ _ _))
    as (vmOut & Hrun & Hrect' & Hent).
  change (Z.of_nat 0) with 0 in Hrun. rewrite Hrun. cbn [bind].
  exists vmOut. split; [reflexivity|]. split; [exact Hrect'|].
  intros i j. rewrite Hent. rewrite decide_True by lia. reflexivity.
Qed.

Lemma rectangular_ext (a b : list (list Var)) (r c : nat) :
  rectangular a r c -> rectangular b r c ->
  (forall i j, VariableMatrix_entry a i j = VariableMatrix_entry b i j) ->
  a = b.
Proof.
  intros Ha Hb Hent. apply list_eq. intros i.
  destruct (a !! i) as [ra|] eqn:Hai, (b !! i) as [rb|] eqn:Hbi.
  - f_equal. apply list_eq. intros j.
    specialize (Hent i j). unfold VariableMatrix_entry in Hent.
    rewrite Hai, Hbi in Hent. exact Hent.
  - apply lookup_lt_Some in Hai. apply lookup_ge_None in Hbi.
    destruct Ha as [Ha _], Hb as [Hb _]. lia.
  - apply lookup_lt_Some in Hbi. apply lookup_ge_None in Hai.
    destruct Ha as [Ha _], Hb as [Hb _]. lia.
  - reflexivity.
Qed.

(** The transpose of a checked matrix with non-empty rows passes [Check]. *)
Lemma VariableMatrix_Transpose_checked (vm vmOut : list (list Var)) (row0 : list Var) :
  row0 <> [] ->
  rectangular vmOut (length row0) (length vm) ->
  exists col0, head vmOut = Some col0 /\ length col0 = length vm
               /\ VariableMatrix_Check vmOut = None.
Proof.
  intros Hne [Hl Hall].
  destruct vmOut as [|col0 rest].
  - destruct row0; [congruence | discriminate Hl].
  - exists col0. split; [reflexivity|].
    assert (Hc0 : length col0 = length vm) by (inversion Hall; assumption).
    split; [exact Hc0|].
    apply (VariableMatrix_Check_rectangular _ col0); [reflexivity|].
    eapply Forall_impl; [exact Hall|]. intros r Hr. cbn beta in Hr. lia.
Qed.

(** X3.  [Transpose] of a matrix that passes [Check] returns a matrix with
    one row per column of [vm], each as long as [vm] has rows, whose entry
    [(j, i)] is the entry [(i, j)] of [vm]. *)
Theorem VariableMatrix_Transpose_entries (vm : list (list Var)) (row0 : list Var)
  (Hc : VariableMatrix_Check vm = None) (Hh : head vm = Some row0) :
  exists vmOut : list (list Var),
    VariableMatrix_Transpose vm = Ok (EVariableMatrix vmOut)
    /\ length vmOut = length row0
    /\ Forall (fun col => length col = length vm) vmOut
    /\ forall i j, VariableMatrix_entry vmOut j i = VariableMatrix_entry vm i j.
Proof.
  destruct (VariableMatrix_Transpose_spec vm row0 Hc Hh) as (vmOut & Ht & [Hl Hall] & Hent).
  exists vmOut. repeat split; assumption.
Qed.

Lemma VariableMatrix_Transpose_entries_witness :
  VariableMatrix_Check vm_2x3 = None
  /\ exists vmOut : list (list Var),
       VariableMatrix_Transpose vm_2x3 = Ok (EVariableMatrix vmOut)
       /\ length vmOut = 3%nat
       /\ Forall (fun col => length col = 2%nat) vmOut
       /\ forall i j, VariableMatrix_entry vmOut j i = VariableMatrix_entry vm_2x3 i j.
Proof.
  split; [reflexivity|].
  apply (VariableMatrix_Transpose_entries vm_2x3 [x0; x1; x2]); reflexivity.
Defined.

(** X4.  Transposing twice gives the matrix back: for a matrix that passes
    [Check] and whose rows are not empty, the transpose passes [Check] too
    and its transpose is the original matrix. *)
Theorem VariableMatrix_Transpose_involutive (vm : list (list Var)) (row0 : list Var)
  (Hc : VariableMatrix_Check vm = None) (Hh : head vm = Some row0)
  (Hne : row0 <> []) :
  exists vmOut : list (list Var),
    VariableMatrix_Transpose vm = Ok (EVariableMatrix vmOut)
    /\ VariableMatrix_Check vmOut = None
    /\ VariableMatrix_Transpose vmOut = Ok (EVariableMatrix vm).
Proof.
  destruct (VariableMatrix_Transpose_spec vm row0 Hc Hh) as (vmOut & Ht & Hrect & Hent).
  destruct (VariableMatrix_Transpose_checked vm vmOut row0 Hne Hrect)
    as (col0 & Hh0 & Hl0 & Hc0).
  exists vmOut. split; [exact Ht|]. split; [exact Hc0|].
  destruct (VariableMatrix_Transpose_spec vmOut col0 Hc0 Hh0)
    as (back & Ht' & Hrect' & Hent').
  rewrite Ht'. do 2 f_equal.
  destruct (VariableMatrix_Check_sound vm Hc) as (r0 & Hh' & Hvm).
  rewrite Hh in Hh'. injection Hh' as <-.
  apply (rectangular_ext back vm (length vm) (length row0)).
  - rewrite Hl0 in Hrect'. destruct Hrect as [<- _]. exact Hrect'.
  - exact Hvm.
  - intros i j. rewrite Hent', Hent. reflexivity.
Qed.

Lemma VariableMatrix_Transpose_involutive_witness :
  VariableMatrix_Check vm_2x3 = None
  /\ head vm_2x3 = Some [x0; x1; x2]
  /\ exists vmOut : list (list Var),
       VariableMatrix_Transpose vm_2x3 = Ok (EVariableMatrix vmOut)
       /\ VariableMatrix_Check vmOut = None
       /\ VariableMatrix_Transpose vmOut = Ok (EVariableMatrix vm_2x3).
Proof.
  split; [reflexivity|]. split; [reflexivity|].
  apply (VariableMatrix_Transpose_involutive vm_2x3 [x0; x1; x2]);
    [reflexivity | reflexivity | discriminate].
Defined.

(** X5.  A matrix of rows without entries passes [Check], and its
    transpose is the matrix without rows, which [Check] rejects: transposing
    such a matrix a second time panics with [EmptyMatrixError]. *)
Theorem VariableMatrix_Transpose_no_columns (vm : list (list Var))
  (Hc : VariableMatrix_Check vm = None) (Hh : head vm = Some []) :
  VariableMatrix_Transpose vm = Ok (EVariableMatrix [])
  /\ VariableMatrix_Transpose [] = Panic (EmptyMatrixError (EVariableMatrix [])).
Proof.
  split; [|reflexivity].
  destruct (VariableMatrix_Transpose_spec vm [] Hc Hh) as (vmOut & Ht & [Hl _] & _).
  destruct vmOut; [exact Ht | discriminate Hl].
Qed.

Lemma VariableMatrix_Transpose_no_columns_witness :
  VariableMatrix_Check [[]; []] = None
  /\ VariableMatrix_Transpose [[]; []] = Ok (EVariableMatrix [])
  /\ VariableMatrix_Transpose [] = Panic (EmptyMatrixError (EVariableMatrix [])).
Proof.
  split; [reflexivity|].
  apply (VariableMatrix_Transpose_no_columns [[]; []]); reflexivity.
Defined.

(** X6.  [At] after [Transpose]: where [vm.At(i, j)] is the variable [v],
    the transpose has [v] at [(j, i)]. *)
Theorem VariableMatrix_At_Transpose (vm : list (list Var)) (i j : nat) (v : Var)
  (Hc : VariableMatrix_Check vm = None)
  (Hv : VariableMatrix_entry vm i j = Some v) :
  VariableMatrix_At vm (Z.of_nat i) (Z.of_nat j) = Ok (EVariable v)
  /\ exists vmOut : list (list Var),
       VariableMatrix_Transpose vm = Ok (EVariableMatrix vmOut)
       /\ VariableMatrix_At vmOut (Z.of_nat j) (Z.of_nat i) = Ok (EVariable v).
Proof.
  assert (HAt : forall (m : list (list Var)) a b,
            VariableMatrix_Check m = None ->
            VariableMatrix_entry m a b = Some v ->
            VariableMatrix_At m (Z.of_nat a) (Z.of_nat b) = Ok (EVariable v)).
  { intros m a b Hm He. unfold VariableMatrix_At, VariableMatrix_entry in *.
    rewrite Hm. cbn [must bind].
    destruct (m !! a) as [r|] eqn:Hr; [|discriminate He].
    rewrite (index_lookup _ _ _ Hr). cbn [bind].
    rewrite (index_lookup _ _ _ He). reflexivity. }
  split; [apply HAt; assumption|].
  destruct (VariableMatrix_Check_sound vm Hc) as (row0 & Hh & Hrect).
  destruct (VariableMatrix_Transpose_spec vm row0 Hc Hh) as (vmOut & Ht & Hrect' & Hent).
  exists vmOut. split; [exact Ht|].
  assert (Hne : row0 <> []).
  { intros ->. unfold VariableMatrix_entry in Hv.
    destruct (vm !! i) as [r|] eqn:Hr; [|discriminate Hv].
    pose proof (rectangular_lookup _ _ _ _ _ Hrect Hr) as Hlen.
    apply lookup_lt_Some in Hv. simpl in Hlen. lia. }
  destruct (VariableMatrix_Transpose_checked vm vmOut row0 Hne Hrect')
    as (col0 & _ & _ & Hc0).
  apply HAt; [exact Hc0|]. rewrite Hent. exact Hv.
Qed.

Lemma VariableMatrix_At_Transpose_witness :
  VariableMatrix_At vm_2x3 1 2 = Ok (EVariable x0)
  /\ exists vmOut : list (list Var),
       VariableMatrix_Transpose vm_2x3 = Ok (EVariableMatrix vmOut)
       /\ VariableMatrix_At vmOut 2 1 = Ok (EVariable x0).
Proof.
  apply (VariableMatrix_At_Transpose vm_2x3 1 2 x0); reflexivity.
Defined.

(** ** The dimension checks of [smErrors] *)

Lemma Dims_pair (e : Expression) (d : list Z) :
  Dims e = Ok d -> exists a b, d = [a; b].
Proof.
  destruct e; simpl; try (intros [= <-]; eexists; eexists; reflexivity).
  intros Hd. destruct (VariableMatrix_Dims_sound vm d Hd) as (row0 & _ & -> & _).
  eexists; eexists; reflexivity.
Qed.

Lemma CheckDimensionsInAddition_dims (left right : Expression) (l0 l1 r0 r1 : Z) :
  Dims left = Ok [l0; l1] -> Dims right = Ok [r0; r1] ->
  smErrors.CheckDimensionsInAddition left right =
    Ok (if ((l0 =? r0) && (l1 =? r1)) || ((l0 =? 1) && (l1 =? 1))
           || ((r0 =? 1) && (r1 =? 1))
        then None
        else Some (DimensionError left right "Plus")).
Proof.
  intros Hl Hr.
  unfold smErrors.CheckDimensionsInAddition, smErrors.IsScalarExpression.
  rewrite Hl, Hr. step_index.
  destruct (((l0 =? r0) && (l1 =? r1)) || ((l0 =? 1) && (l1 =? 1))
            || ((r0 =? 1) && (r1 =? 1))); reflexivity.
Qed.

Lemma CheckDimensionsInSubtraction_dims (left right : Expression) (l0 l1 r0 r1 : Z) :
  Dims left = Ok [l0; l1] -> Dims right = Ok [r0; r1] ->
  CheckDimensionsInSubtraction left right =
    Ok (if ((l0 =? r0) && (l1 =? r1)) || ((l0 =? 1) && (l1 =? 1))
           || ((r0 =? 1) && (r1 =? 1))
        then None
        else Some (DimensionError left right "Minus")).
Proof.
  intros Hl Hr.
  unfold CheckDimensionsInSubtraction, smErrors.IsScalarExpression.
  rewrite Hl, Hr. step_index.
  destruct (((l0 =? r0) && (l1 =? r1)) || ((l0 =? 1) && (l1 =? 1))
            || ((r0 =? 1) && (r1 =? 1))); reflexivity.
Qed.

Lemma CheckDimensionsInMultiplication_dims (left right : Expression) (l0 l1 r0 r1 : Z) :
  Dims left = Ok [l0; l1] -> Dims right = Ok [r0; r1] ->
  smErrors.CheckDimensionsInMultiplication left right =
    Ok (if (l1 =? r0) || ((l0 =? 1) && (l1 =? 1)) || ((r0 =? 1) && (r1 =? 1))
        then None
        else Some (DimensionError left right "Multiply")).
Proof.
  intros Hl Hr.
  unfold smErrors.CheckDimensionsInMultiplication, smErrors.IsScalarExpression.
  rewrite Hl, Hr. step_index.
  destruct ((l1 =? r0) || ((l0 =? 1) && (l1 =? 1)) || ((r0 =? 1) && (r1 =? 1)));
    reflexivity.
Qed.

Lemma CheckDimensionsInAddition_panics_left (left right : Expression) (err : error) :
  Dims left = Panic err -> smErrors.CheckDimensionsInAddition left right = Panic err.
Proof. intros H. unfold smErrors.CheckDimensionsInAddition. rewrite H. reflexivity. Qed.

Lemma CheckDimensionsInAddition_panics_right (left right : Expression) (d : list Z)
  (err : error) :
  Dims left = Ok d -> Dims right = Panic err ->
  smErrors.CheckDimensionsInAddition left right = Panic err.
Proof.
  intros Hl Hr. unfold smErrors.CheckDimensionsInAddition. rewrite Hl, Hr.
  reflexivity.
Qed.

(** X7.  The addition check does not depend on the order of the operands:
    it accepts [left, right] exactly when it accepts [right, left]. *)
Theorem CheckDimensionsInAddition_symmetric (left right : Expression) :
  smErrors.CheckDimensionsInAddition left right = Ok None <->
  smErrors.CheckDimensionsInAddition right left = Ok None.
Proof.
  destruct (Dims left) as [ld|el] eqn:Hl, (Dims right) as [rd|er] eqn:Hr.
  - destruct (Dims_pair _ _ Hl) as (l0 & l1 & ->).
    destruct (Dims_pair _ _ Hr) as (r0 & r1 & ->).
    rewrite (CheckDimensionsInAddition_dims _ _ _ _ _ _ Hl Hr).
    rewrite (CheckDimensionsInAddition_dims _ _ _ _ _ _ Hr Hl).
    rewrite (Z.eqb_sym r0 l0), (Z.eqb_sym r1 l1).
    destruct ((l0 =? r0) && (l1 =? r1)), ((l0 =? 1) && (l1 =? 1)),
      ((r0 =? 1) && (r1 =? 1)); cbn [orb]; split; intros H;
      solve [reflexivity | discriminate H].
  - rewrite (CheckDimensionsInAddition_panics_right _ _ _ _ Hl Hr).
    rewrite (CheckDimensionsInAddition_panics_left _ _ _ Hr).
    split; discriminate.
  - rewrite (CheckDimensionsInAddition_panics_left _ _ _ Hl).
    rewrite (CheckDimensionsInAddition_panics_right _ _ _ _ Hr Hl).
    split; discriminate.
  - rewrite (CheckDimensionsInAddition_panics_left _ _ _ Hl).
    rewrite (CheckDimensionsInAddition_panics_left _ _ _ Hr).
    split; discriminate.
Qed.

(** X8.  Subtraction is allowed exactly when addition is, and a rejected
    pair is reported with the same two operands, in the order of the call,
    under the operation name "Minus" instead of "Plus". *)
Theorem CheckDimensionsInSubtraction_as_Addition (left right : Expression) :
  CheckDimensionsInSubtraction left right =
    match smErrors.CheckDimensionsInAddition left right with
    | Ok (Some _) => Ok (Some (DimensionError left right "Minus"))
    | other => other
    end
  /\ (forall err, smErrors.CheckDimensionsInAddition left right = Ok (Some err) ->
        err = DimensionError left right "Plus").
Proof.
  destruct (Dims left) as [ld|el] eqn:Hl.
  - destruct (Dims right) as [rd|er] eqn:Hr.
    + destruct (Dims_pair _ _ Hl) as (l0 & l1 & ->).
      destruct (Dims_pair _ _ Hr) as (r0 & r1 & ->).
      rewrite (CheckDimensionsInAddition_dims _ _ _ _ _ _ Hl Hr).
      rewrite (CheckDimensionsInSubtraction_dims _ _ _ _ _ _ Hl Hr).
      destruct (((l0 =? r0) && (l1 =? r1)) || ((l0 =? 1) && (l1 =? 1))
                || ((r0 =? 1) && (r1 =? 1))).
      * split; [reflexivity | discriminate].
      * split; [reflexivity | intros err [= <-]; reflexivity].
    + rewrite (CheckDimensionsInAddition_panics_right _ _ _ _ Hl Hr).
      unfold CheckDimensionsInSubtraction. rewrite Hl, Hr.
      split; [reflexivity | discriminate].
  - rewrite (CheckDimensionsInAddition_panics_left _ _ _ Hl).
    unfold CheckDimensionsInSubtraction. rewrite Hl.
    split; [reflexivity | discriminate].
Qed.

(** X9.  A matrix can always be multiplied with its transpose, on either
    side: for a matrix that passes [Check] and has non-empty rows, the
    multiplication check accepts [vm, transpose] and [transpose, vm]. *)
Theorem CheckDimensionsInMultiplication_Transpose (vm : list (list Var))
  (row0 : list Var)
  (Hc : VariableMatrix_Check vm = None) (Hh : head vm = Some row0)
  (Hne : row0 <> []) :
  exists vmOut : list (list Var),
    VariableMatrix_Transpose vm = Ok (EVariableMatrix vmOut)
    /\ smErrors.CheckDimensionsInMultiplication
         (EVariableMatrix vm) (EVariableMatrix vmOut) = Ok None
    /\ smErrors.CheckDimensionsInMultiplication
         (EVariableMatrix vmOut) (EVariableMatrix vm) = Ok None.
Proof.
  destruct (VariableMatrix_Transpose_spec vm row0 Hc Hh) as (vmOut & Ht & Hrect & _).
  destruct (VariableMatrix_Transpose_checked vm vmOut row0 Hne Hrect)
    as (col0 & Hh0 & Hl0 & Hc0).
  exists vmOut. split; [exact Ht|].
  destruct (VariableMatrix_Dims_checked vm Hc) as (r & Hr & Hd).
  rewrite Hh in Hr. injection Hr as <-.
  destruct (VariableMatrix_Dims_checked vmOut Hc0) as (c & Hcc & Hd0).
  rewrite Hh0 in Hcc. injection Hcc as <-.
  destruct Hrect as [Hlen _]. unfold len in Hd, Hd0. rewrite Hlen, Hl0 in Hd0.
  change (VariableMatrix_Dims vm) with (Dims (EVariableMatrix vm)) in Hd.
  change (VariableMatrix_Dims vmOut) with (Dims (EVariableMatrix vmOut)) in Hd0.
  split.
  - rewrite (CheckDimensionsInMultiplication_dims _ _ _ _ _ _ Hd Hd0).
    rewrite Z.eqb_refl. reflexivity.
  - rewrite (CheckDimensionsInMultiplication_dims _ _ _ _ _ _ Hd0 Hd).
    rewrite Z.eqb_refl. reflexivity.
Qed.

Lemma CheckDimensionsInMultiplication_Transpose_witness :
  exists vmOut : list (list Var),
    VariableMatrix_Transpose vm_2x3 = Ok (EVariableMatrix vmOut)
    /\ smErrors.CheckDimensionsInMultiplication
         (EVariableMatrix vm_2x3) (EVariableMatrix vmOut) = Ok None
    /\ smErrors.CheckDimensionsInMultiplication
         (EVariableMatrix vmOut) (EVariableMatrix vm_2x3) = Ok None.
Proof.
  apply (CheckDimensionsInMultiplication_Transpose vm_2x3 [x0; x1; x2]);
    [reflexivity | reflexivity | discriminate].
Defined.

(** ** The stacking checks *)

Lemma mapM_Forall2 {A B : Type} (f : A -> result B) (l : list A) (bs : list B) :
  Forall2 (fun a b => f a = Ok b) l bs -> mapM f l = Ok bs.
Proof.
  induction 1 as [|a b l bs Hab _ IH]; simpl; [reflexivity|].
  rewrite Hab. cbn [bind]. rewrite IH. reflexivity.
Qed.

(** The index loop of the stacking checks finds the first pair of
    neighbours with different counts. *)
Lemma CheckDimensionsInStack_loop_spec (Operation : string) (se : list Expression) :
  forall (sc : list Z) (pe : list Expression) (pc : list Z) (e1 : Expression) (c1 : Z),
    length pe = length pc ->
    length se = length sc ->
    CheckDimensionsInStack_loop Operation (pe ++ e1 :: se)%list (pc ++ c1 :: sc)%list
      (length sc) (Z.of_nat (S (length pc))) =
    Ok (first_adjacent_mismatch Operation (e1 :: se) (c1 :: sc)).
Proof.
  induction se as [|e2 se IH]; intros sc pe pc e1 c1 Hp Hs.
  - destruct sc; [reflexivity | discriminate Hs].
  - destruct sc as [|c2 sc]; [discriminate Hs|].
    cbn [length CheckDimensionsInStack_loop first_adjacent_mismatch].
    assert (Hc2 : index (pc ++ c1 :: c2 :: sc)%list (Z.of_nat (S (length pc))) = Ok c2).
    { apply index_lookup.
      change (pc ++ c1 :: c2 :: sc)%list with (pc ++ [c1] ++ c2 :: sc)%list.
      rewrite app_assoc. apply list_lookup_middle.
      rewrite length_app. simpl. lia. }
    assert (Hc1 : index (pc ++ c1 :: c2 :: sc)%list (Z.of_nat (S (length pc)) - 1) = Ok c1).
    { replace (Z.of_nat (S (length pc)) - 1) with (Z.of_nat (length pc)) by lia.
      apply index_lookup, list_lookup_middle. reflexivity. }
    rewrite Hc2. cbn [bind]. rewrite Hc1. cbn [bind].
    destruct (negb (c2 =? c1)).
    + assert (He1 : index (pe ++ e1 :: e2 :: se)%list (Z.of_nat (S (length pc)) - 1) = Ok e1).
      { replace (Z.of_nat (S (length pc)) - 1) with (Z.of_nat (length pe)) by lia.
        apply index_lookup, list_lookup_middle. reflexivity. }
      assert (He2 : index (pe ++ e1 :: e2 :: se)%list (Z.of_nat (S (length pc))) = Ok e2).
      { apply index_lookup.
        change (pe ++ e1 :: e2 :: se)%list with (pe ++ [e1] ++ e2 :: se)%list.
        rewrite app_assoc. apply list_lookup_middle.
        rewrite length_app. simpl. lia. }
      rewrite He1. cbn [bind]. rewrite He2. reflexivity.
    + specialize (IH sc (pe ++ [e1])%list (pc ++ [c1])%list e2 c2).
      rewrite <- !app_assoc in IH. cbn [app] in IH.
      rewrite !length_app in IH. cbn [length] in IH.
      replace (Z.of_nat (S (length pc)) + 1) with (Z.of_nat (S (length pc + 1))) by lia.
      apply IH; [lia|]. simpl in Hs. lia.
Qed.

Lemma CheckDimensionsInStack_run (Operation : string) (f : Expression -> result Z)
  (es : list Expression) (counts : list Z) :
  Forall2 (fun e c => f e = Ok c) es counts ->
  (cs <- mapM f es ;;
   CheckDimensionsInStack_loop Operation es cs (length cs - 1) 1) =
  Ok (first_adjacent_mismatch Operation es counts).
Proof.
  intros H. rewrite (mapM_Forall2 _ _ _ H). cbn [bind].
  pose proof (Forall2_length _ _ _ H) as Hlen.
  destruct H as [|e1 c1 se sc _ Hrest]; [reflexivity|].
  replace (length (c1 :: sc) - 1)%nat with (length sc) by (simpl; lia).
  apply (CheckDimensionsInStack_loop_spec Operation se sc [] [] e1 c1);
    [reflexivity|]. simpl in Hlen. lia.
Qed.

Lemma first_adjacent_mismatch_None (Operation : string) (es : list Expression) :
  forall counts : list Z,
    length es = length counts ->
    (first_adjacent_mismatch Operation es counts = None <->
     forall a b, In a counts -> In b counts -> a = b).
Proof.
  induction es as [|e1 es IH]; intros counts Hlen.
  - destruct counts; [|discriminate Hlen]. split; [intros _ a b []|reflexivity].
  - destruct counts as [|c1 counts]; [discriminate Hlen|].
    destruct es as [|e2 es].
    + destruct counts; [|discriminate Hlen].
      split; [|reflexivity]. intros _ a b [<-|[]] [<-|[]]. reflexivity.
    + destruct counts as [|c2 counts]; [discriminate Hlen|].
      cbn [first_adjacent_mismatch].
      specialize (IH (c2 :: counts) ltac:(simpl in *; lia)).
      destruct (Z.eqb_spec c2 c1) as [->|Hne]; cbn [negb].
      * rewrite IH. split.
        -- intros H a b [<-|Ha] [<-|Hb]; try reflexivity.
           ++ apply H; [left; reflexivity | exact Hb].
           ++ apply H; [exact Ha | left; reflexivity].
           ++ apply H; assumption.
        -- intros H a b Ha Hb. apply H; right; assumption.
      * split; [discriminate|]. intros H. exfalso. apply Hne.
        apply H; [right; left; reflexivity | left; reflexivity].
Qed.

Lemma first_adjacent_mismatch_Some (Operation : string) (es : list Expression) :
  forall (counts : list Z) (err : error),
    first_adjacent_mismatch Operation es counts = Some err ->
    exists pre e1 e2 post,
      es = (pre ++ e1 :: e2 :: post)%list /\ err = DimensionError e1 e2 Operation.
Proof.
  induction es as [|e1 es IH]; intros counts err H; [discriminate H|].
  destruct es as [|e2 es], counts as [|c1 [|c2 counts]]; try discriminate H.
  change (first_adjacent_mismatch Operation (e1 :: e2 :: es) (c1 :: c2 :: counts))
    with (if negb (c2 =? c1) then Some (DimensionError e1 e2 Operation)
          else first_adjacent_mismatch Operation (e2 :: es) (c2 :: counts)) in H.
  destruct (negb (c2 =? c1)).
  - injection H as <-. exists [], e1, e2, es. split; reflexivity.
  - destruct (IH _ _ H) as (pre & a & b & post & Hes & Herr).
    exists (e1 :: pre), a, b, post. split; [|exact Herr].
    rewrite Hes. reflexivity.
Qed.

(** X10.  The horizontal stacking check, on operands whose row counts are
    [rows]: it never panics; it returns no error exactly when all row
    counts are equal; and an error it returns is the [DimensionError],
    under the name "HStack", of two neighbouring operands in their order. *)
Theorem CheckDimensionsInHStack_spec (es : list Expression) (rows : list Z)
  (H : Forall2 (fun e r => exists c, Dims e = Ok [r; c]) es rows) :
  (exists o, CheckDimensionsInHStack es = Ok o)
  /\ (CheckDimensionsInHStack es = Ok None <->
      forall a b, In a rows -> In b rows -> a = b)
  /\ (forall err, CheckDimensionsInHStack es = Ok (Some err) ->
        exists pre e1 e2 post,
          es = (pre ++ e1 :: e2 :: post)%list
          /\ err = DimensionError e1 e2 "HStack").
Proof.
  assert (Hrun : CheckDimensionsInHStack es =
                 Ok (first_adjacent_mismatch "HStack" es rows)).
  { apply CheckDimensionsInStack_run.
    eapply Forall2_impl; [exact H|]. intros e r (c & Hd).
    cbn beta. rewrite Hd. reflexivity. }
  rewrite Hrun. split; [eexists; reflexivity|]. split.
  - rewrite <- (first_adjacent_mismatch_None "HStack" es rows (Forall2_length _ _ _ H)).
    split; [intros [= ->]; reflexivity | intros ->; reflexivity].
  - intros err [= Herr]. exact (first_adjacent_mismatch_Some _ _ _ _ Herr).
Qed.

Lemma CheckDimensionsInHStack_spec_witness :
  (exists o,
     CheckDimensionsInHStack
       [EVariableMatrix vm_2x3; EVariableVector vv_01; EVariableMatrix vm_2x2] = Ok o)
  /\ CheckDimensionsInHStack
       [EVariableMatrix vm_2x3; EVariableVector vv_01; EVariableMatrix vm_2x2] = Ok None.
Proof.
  destruct (CheckDimensionsInHStack_spec
              [EVariableMatrix vm_2x3; EVariableVector vv_01; EVariableMatrix vm_2x2]
              [2; 2; 2]) as (Hex & Hiff & _).
  - repeat constructor; eexists; reflexivity.
  - split; [exact Hex|]. apply Hiff.
    intros a b [<-|[<-|[<-|[]]]] [<-|[<-|[<-|[]]]]; reflexivity.
Defined.

(** X11.  The vertical stacking check, on operands whose column counts are
    [cols]: it never panics; it returns no error exactly when all column
    counts are equal; and an error it returns is the [DimensionError],
    under the name "VStack", of two neighbouring operands in their order. *)
Theorem CheckDimensionsInVStack_spec (es : list Expression) (cols : list Z)
  (H : Forall2 (fun e c => exists r, Dims e = Ok [r; c]) es cols) :
  (exists o, CheckDimensionsInVStack es = Ok o)
  /\ (CheckDimensionsInVStack es = Ok None <->
      forall a b, In a cols -> In b cols -> a = b)
  /\ (forall err, CheckDimensionsInVStack es = Ok (Some err) ->
        exists pre e1 e2 post,
          es = (pre ++ e1 :: e2 :: post)%list
          /\ err = DimensionError e1 e2 "VStack").
Proof.
  assert (Hrun : CheckDimensionsInVStack es =
                 Ok (first_adjacent_mismatch "VStack" es cols)).
  { apply CheckDimensionsInStack_run.
    eapply Forall2_impl; [exact H|]. intros e c (r & Hd).
    cbn beta. rewrite Hd. reflexivity. }
  rewrite Hrun. split; [eexists; reflexivity|]. split.
  - rewrite <- (first_adjacent_mismatch_None "VStack" es cols (Forall2_length _ _ _ H)).
    split; [intros [= ->]; reflexivity | intros ->; reflexivity].
  - intros err [= Herr]. exact (first_adjacent_mismatch_Some _ _ _ _ Herr).
Qed.

Lemma CheckDimensionsInVStack_spec_witness :
  (exists o,
     CheckDimensionsInVStack [EVariableMatrix vm_2x3; EVariableVector vv_012] = Ok o)
  /\ exists err,
       CheckDimensionsInVStack [EVariableMatrix vm_2x3; EVariableVector vv_012]
       = Ok (Some err)
       /\ err = DimensionError (EVariableMatrix vm_2x3) (EVariableVector vv_012) "VStack".
Proof.
  destruct (CheckDimensionsInVStack_spec
              [EVariableMatrix vm_2x3; EVariableVector vv_012] [3; 1])
    as (Hex & _ & _).
  - repeat constructor; eexists; reflexivity.
  - split; [exact Hex|]. eexists. split; reflexivity.
Defined.

(** ** More on [Polynomial] *)

Lemma ConstantMonomialIndex_loop_least (ms : list Monomial) :
  forall ii : Z,
    (ConstantMonomialIndex_loop ii ms = -1
     /\ Forall (fun m => Monomial_IsConstant m = false) ms)
    \/ (exists (k : nat) (m : Monomial),
          ConstantMonomialIndex_loop ii ms = ii + Z.of_nat k
          /\ ms !! k = Some m
          /\ Monomial_IsConstant m = true
          /\ forall (j : nat) (m' : Monomial),
               (j < k)%nat -> ms !! j = Some m' -> Monomial_IsConstant m' = false).
Proof.
  induction ms as [|m ms IH]; intros ii; simpl.
  - left. split; [reflexivity | constructor].
  - destruct (Monomial_IsConstant m) eqn:Hm.
    + right. exists 0%nat, m. repeat split; [lia | exact Hm |].
      intros j m' Hj. exfalso. lia.
    + destruct (IH (ii + 1)) as [[Hr Hall]|(k & mk & Hr & Hk & Hc & Hleast)].
      * left. split; [exact Hr | constructor; assumption].
      * right. exists (S k), mk. repeat split; [lia | exact Hk | exact Hc |].
        intros [|j] m' Hj Hl.
        -- injection Hl as <-. exact Hm.
        -- apply (Hleast j m'); [lia | exact Hl].
Qed.

(** X12.  When [ConstantMonomialIndex] returns, the result is [-1] and no
    monomial of the polynomial is constant, or it is the index of a
    constant monomial before which no monomial is constant. *)
Theorem Polynomial_ConstantMonomialIndex_least (p : Polynomial) (i : Z)
  (H : Polynomial_ConstantMonomialIndex p = Ok i) :
  (i = -1 /\ Forall (fun m => Monomial_IsConstant m = false) (Monomials p))
  \/ (exists (k : nat) (m : Monomial),
        i = Z.of_nat k
        /\ Monomials p !! k = Some m
        /\ Monomial_IsConstant m = true
        /\ forall (j : nat) (m' : Monomial),
             (j < k)%nat -> Monomials p !! j = Some m' ->
             Monomial_IsConstant m' = false).
Proof.
  unfold Polynomial_ConstantMonomialIndex in H.
  destruct (Polynomial_Check p); [discriminate H|].
  cbn [must bind] in H. injection H as <-.
  destruct (ConstantMonomialIndex_loop_least (Monomials p) 0)
    as [[Hr Hall]|(k & m & Hr & Hk & Hc & Hleast)].
  - left. split; assumption.
  - right. exists k, m. rewrite Hr.
    split; [lia|]. split; [exact Hk|]. split; [exact Hc | exact Hleast].
Qed.

Lemma Polynomial_ConstantMonomialIndex_least_witness :
  Polynomial_ConstantMonomialIndex p_x0_plus_3 = Ok 1
  /\ ((1 = -1 /\ Forall (fun m => Monomial_IsConstant m = false) (Monomials p_x0_plus_3))
      \/ (exists (k : nat) (m : Monomial),
            1 = Z.of_nat k
            /\ Monomials p_x0_plus_3 !! k = Some m
            /\ Monomial_IsConstant m = true
            /\ forall (j : nat) (m' : Monomial),
                 (j < k)%nat -> Monomials p_x0_plus_3 !! j = Some m' ->
                 Monomial_IsConstant m' = false)).
Proof.
  split; [reflexivity|].
  apply (Polynomial_ConstantMonomialIndex_least p_x0_plus_3 1). reflexivity.
Defined.

Lemma Polynomial_Plus_Variable_panics (p : Polynomial) (v : Var) :
  exists err, Polynomial_Plus p (VExpr (EVariable v)) = Panic err.
Proof.
  unfold Polynomial_Plus. apply bind_panics. intros _.
  unfold Polynomial_Plus_switch. apply bind_panics. intros variableIndex.
  apply bind_Panic.
Qed.

(** X13.  [Polynomial.Plus] returns a value for a constant operand only
    (a [K] or a [float64]), and then only when the polynomial passes
    [Check] and has a constant monomial; the value is the polynomial with
    the constant appended as a further monomial.  For a variable, a
    monomial, a polynomial, a vector, a matrix or an [int] it panics. *)
Theorem Polynomial_Plus_returns_for_constants_only (p : Polynomial) (e : value)
  (r : Expression) (H : Polynomial_Plus p e = Ok r) :
  exists k : K,
    (e = VExpr (EK k) \/ e = VFloat64 k)
    /\ Polynomial_Check p = None
    /\ existsb Monomial_IsConstant (Monomials p) = true
    /\ r = EPolynomial {| Monomials := (Monomials p ++ [K_ToMonomial k])%list |}.
Proof.
  assert (HK : forall k, Polynomial_Plus p (VExpr (EK k)) = Ok r ->
            Polynomial_Check p = None
            /\ existsb Monomial_IsConstant (Monomials p) = true
            /\ r = EPolynomial {| Monomials := (Monomials p ++ [K_ToMonomial k])%list |}).
  { intros k Hk.
    destruct (Polynomial_Check p) as [err|] eqn:Hc.
    - unfold Polynomial_Plus, Polynomial_Plus_inputs in Hk.
      rewrite Hc in Hk. discriminate Hk.
    - rewrite existsb_find.
      destruct (List.find Monomial_IsConstant (Monomials p)) as [m|] eqn:Hf.
      + rewrite (Polynomial_Plus_K_appends p k m Hc Hf) in Hk.
        injection Hk as <-. repeat split.
      + rewrite (Polynomial_Plus_K_panics p k Hc Hf) in Hk. discriminate Hk. }
  assert (Hdefault : forall e',
            Polynomial_Plus_switch p e' =
              Panic (Errorf "Unexpected type of right in the Plus() method: %T (%v)"
                            [FValue e'; FValue e']) ->
            (Polynomial_Plus_inputs p e' ;; Polynomial_Plus_switch p e') = Ok r -> False).
  { intros e' Hs Hr. rewrite Hs in Hr.
    destruct (Polynomial_Plus_inputs p e'); discriminate Hr. }
  destruct e as [i|f|s|[k|v|m|q|kv|vv|vm]].
  - exfalso.
    match type of H with Polynomial_Plus p ?x = _ => exact (Hdefault x eq_refl H) end.
  - rewrite Polynomial_Plus_float64 in H. exists f.
    split; [right; reflexivity | exact (HK f H)].
  - exfalso.
    match type of H with Polynomial_Plus p ?x = _ => exact (Hdefault x eq_refl H) end.
  - exists k. split; [left; reflexivity | exact (HK k H)].
  - destruct (Polynomial_Plus_Variable_panics p v) as (err & Hp).
    rewrite Hp in H. discriminate H.
  - exfalso.
    match type of H with Polynomial_Plus p ?x = _ => exact (Hdefault x eq_refl H) end.
  - exfalso.
    match type of H with Polynomial_Plus p ?x = _ => exact (Hdefault x eq_refl H) end.
  - exfalso.
    match type of H with Polynomial_Plus p ?x = _ => exact (Hdefault x eq_refl H) end.
  - exfalso.
    match type of H with Polynomial_Plus p ?x = _ => exact (Hdefault x eq_refl H) end.
  - exfalso.
    match type of H with Polynomial_Plus p ?x = _ => exact (Hdefault x eq_refl H) end.
Qed.

Lemma Polynomial_Plus_returns_for_constants_only_witness :
  exists k : K,
    (VFloat64 2%float = VExpr (EK k) \/ VFloat64 2%float = VFloat64 k)
    /\ Polynomial_Check p_one = None
    /\ existsb Monomial_IsConstant (Monomials p_one) = true
    /\ EPolynomial {| Monomials := [K_ToMonomial 1%float; K_ToMonomial 2%float] |}
       = EPolynomial {| Monomials := (Monomials p_one ++ [K_ToMonomial k])%list |}.
Proof.
  apply (Polynomial_Plus_returns_for_constants_only p_one (VFloat64 2%float)).
  vm_compute. reflexivity.
Defined.

(** X14.  [Polynomial.Comparison] returns a constraint only when the
    polynomial passes [Check] and the right-hand side is a [float64], a [K]
    or a variable; the constraint then has the polynomial on the left, the
    operand on the right (a [float64] as a [K]) and the given sense.  A
    polynomial or monomial on the right makes it panic. *)
Theorem Polynomial_Comparison_returns (p : Polynomial) (rightIn : value)
  (sense : ConstrSense) (c : Constraint)
  (H : Polynomial_Comparison p rightIn sense = Ok c) :
  Polynomial_Check p = None
  /\ ((exists f, rightIn = VFloat64 f
                 /\ c = ScalarConstraint (EPolynomial p) (EK f) sense)
      \/ (exists k, rightIn = VExpr (EK k)
                    /\ c = ScalarConstraint (EPolynomial p) (EK k) sense)
      \/ (exists v, rightIn = VExpr (EVariable v)
                    /\ c = ScalarConstraint (EPolynomial p) (EVariable v) sense)).
Proof.
  unfold Polynomial_Comparison in H.
  destruct (Polynomial_Check p) as [err|]; [discriminate H|].
  split; [reflexivity|]. cbn [must bind] in H.
  destruct rightIn as [i|f|s|[k|v|m|q|kv|vv|vm]]; try discriminate H;
    cbn in H; injection H as <-.
  - left. eexists. split; reflexivity.
  - right. left. eexists. split; reflexivity.
  - right. right. eexists. split; reflexivity.
Qed.

Lemma Polynomial_Comparison_returns_witness :
  Polynomial_Comparison p_x0 (VFloat64 5%float) SenseLessThanEqual
    = Ok (ScalarConstraint (EPolynomial p_x0) (EK 5%float) SenseLessThanEqual)
  /\ Polynomial_Check p_x0 = None.
Proof.
  split; [reflexivity|].
  apply (Polynomial_Comparison_returns p_x0 (VFloat64 5%float) SenseLessThanEqual
           (ScalarConstraint (EPolynomial p_x0) (EK 5%float) SenseLessThanEqual)
           eq_refl).
Defined.

(** ** More on [Polynomial.Multiply] and the backing arrays *)

Lemma slice_store_frame (h h' : list (list Monomial)) (s : Mem.slice) (i : Z)
  (x : Monomial) :
  Mem.slice_store h s i x = Ok h' ->
  length h' = length h
  /\ (forall a, a <> Mem.s_array s -> h' !! a = h !! a)
  /\ (forall a, length (default [] (h' !! a)) = length (default [] (h !! a))).
Proof.
  unfold Mem.slice_store.
  destruct ((i <? 0) || (Z.of_nat (length (Mem.contents h s)) <=? i)); [discriminate|].
  intros [= <-]. split; [apply length_insert|]. split.
  - intros a Ha. apply list_lookup_insert_ne. congruence.
  - intros a. destruct (decide (a = Mem.s_array s)) as [->|Ha].
    + destruct (h !! Mem.s_array s) as [arr|] eqn:Harr.
      * rewrite list_lookup_insert_eq by (eapply lookup_lt_Some; exact Harr).
        cbn [default from_option id]. apply length_insert.
      * rewrite list_insert_ge by (apply lookup_ge_None; exact Harr).
        rewrite Harr. reflexivity.
    + rewrite list_lookup_insert_ne by congruence. reflexivity.
Qed.

Lemma Polynomial_Multiply_loop_frame (right' : Expression) (p : Mem.PolynomialHdr)
  (n : nat) :
  forall (ii : Z) (h h' : list (list Monomial)),
    Mem.Polynomial_Multiply_loop right' p n ii h = Ok h' ->
    length h' = length h
    /\ (forall a, a <> Mem.s_array (Mem.MonomialsHdr p) -> h' !! a = h !! a)
    /\ (forall a, length (default [] (h' !! a)) = length (default [] (h !! a))).
Proof.
  induction n as [|n IH]; intros ii h h' H.
  - injection H as <-. repeat split.
  - cbn [Mem.Polynomial_Multiply_loop] in H.
    destruct (Mem.slice_index h (Mem.MonomialsHdr p) ii) as [m|]; [|discriminate H].
    cbn [bind] in H.
    destruct (Mem.Monomial_Multiply m right') as [prod|]; [|discriminate H].
    cbn [bind] in H.
    destruct (as_Monomial prod) as [pm|]; [|discriminate H].
    cbn [bind] in H.
    destruct (Mem.slice_store h (Mem.MonomialsHdr p) ii pm) as [h1|] eqn:Hs;
      [|discriminate H].
    cbn [bind] in H.
    destruct (slice_store_frame _ _ _ _ _ Hs) as (Hl1 & Hf1 & Hc1).
    destruct (IH _ _ _ H) as (Hl & Hf & Hc).
    split; [congruence|]. split.
    + intros a Ha. rewrite Hf, Hf1 by exact Ha. reflexivity.
    + intros a. rewrite Hc, Hc1. reflexivity.
Qed.

Lemma Polynomial_Multiply_frame (h h' : list (list Monomial))
  (p q : Mem.PolynomialHdr) (e : value) :
  Mem.Polynomial_Multiply h p e = Ok (q, h') ->
  q = p /\ length h' = length h
  /\ (forall a, a <> Mem.s_array (Mem.MonomialsHdr p) -> h' !! a = h !! a)
  /\ (forall a, length (default [] (h' !! a)) = length (default [] (h !! a))).
Proof.
  intros H.
  assert (Hsw : forall e', Mem.Polynomial_Multiply_switch h p e' = Ok (q, h') ->
            q = p /\ length h' = length h
            /\ (forall a, a <> Mem.s_array (Mem.MonomialsHdr p) -> h' !! a = h !! a)
            /\ (forall a, length (default [] (h' !! a)) = length (default [] (h !! a)))).
  { intros e' Hs. unfold Mem.Polynomial_Multiply_switch in Hs.
    destruct e' as [i|f|s|[k|v|m|q'|kv|vv|vm]]; try discriminate Hs;
      match type of Hs with
      | (h0 <- Mem.Polynomial_Multiply_loop ?r _ ?n ?ii _ ;; _) = _ =>
          destruct (Mem.Polynomial_Multiply_loop r p n ii h) as [h1|] eqn:Hl;
            [|discriminate Hs];
          cbn [bind] in Hs; injection Hs as <- <-;
          destruct (Polynomial_Multiply_loop_frame _ _ _ _ _ _ Hl) as (H1 & H2 & H3);
          repeat split; assumption
      end. }
  unfold Mem.Polynomial_Multiply in H.
  destruct (Mem.Polynomial_Multiply_inputs h p e); [|discriminate H].
  cbn [bind] in H.
  destruct e as [i|f|s|x]; try exact (Hsw _ H).
  destruct (Mem.Polynomial_Multiply_inputs h p (VExpr (EK f))); [|discriminate H].
  exact (Hsw _ H).
Qed.

Lemma Polynomial_Multiply_keeps_wf (h h' : list (list Monomial))
  (p q : Mem.PolynomialHdr) (e : value) :
  Mem.Polynomial_Multiply h p e = Ok (q, h') ->
  Mem.wf h (Mem.MonomialsHdr p) -> Mem.wf h' (Mem.MonomialsHdr p).
Proof.
  intros H (arr & Harr & Hcap & Hlen).
  destruct (Polynomial_Multiply_frame _ _ _ _ _ H) as (_ & Hl & _ & Hc).
  destruct (lookup_lt_is_Some_2 h' (Mem.s_array (Mem.MonomialsHdr p))) as [arr' Harr'].
  { rewrite Hl. eapply lookup_lt_Some. exact Harr. }
  exists arr'. split; [exact Harr'|]. split; [|exact Hlen].
  specialize (Hc (Mem.s_array (Mem.MonomialsHdr p))).
  rewrite Harr, Harr' in Hc. cbn [default from_option id] in Hc. lia.
Qed.

(** X15.  Whenever [Polynomial.Multiply] returns, whatever the operand,
    the polynomial it returns is the receiver's own slice (same array,
    length and capacity), no array is allocated, every other array of the
    heap is left as it was, and the receiver keeps its number of
    monomials. *)
Theorem Polynomial_Multiply_aliases_receiver (h h' : list (list Monomial))
  (p q : Mem.PolynomialHdr) (e : value)
  (H : Mem.Polynomial_Multiply h p e = Ok (q, h')) :
  q = p
  /\ length h' = length h
  /\ (forall a, a <> Mem.s_array (Mem.MonomialsHdr p) -> h' !! a = h !! a)
  /\ length (Monomials (Mem.view h' p)) = length (Monomials (Mem.view h p)).
Proof.
  destruct (Polynomial_Multiply_frame _ _ _ _ _ H) as (Hq & Hl & Hf & Hc).
  split; [exact Hq|]. split; [exact Hl|]. split; [exact Hf|].
  unfold Mem.view, Mem.contents. cbn [Monomials].
  rewrite !length_take, Hc. reflexivity.
Qed.

Lemma Polynomial_Multiply_aliases_receiver_witness :
  Mem.Polynomial_Multiply h_2x0 hdr_2x0 (VExpr (EK 3%float)) = Ok (hdr_2x0, [[m_6x0]])
  /\ hdr_2x0 = hdr_2x0
  /\ length [[m_6x0]] = length h_2x0
  /\ (forall a, a <> Mem.s_array (Mem.MonomialsHdr hdr_2x0) ->
                ([[m_6x0]] : list (list Monomial)) !! a = h_2x0 !! a)
  /\ length (Monomials (Mem.view [[m_6x0]] hdr_2x0))
     = length (Monomials (Mem.view h_2x0 hdr_2x0)).
Proof.
  assert (H : Mem.Polynomial_Multiply h_2x0 hdr_2x0 (VExpr (EK 3%float))
              = Ok (hdr_2x0, [[m_6x0]])) by (vm_compute; reflexivity).
  split; [exact H|].
  exact (Polynomial_Multiply_aliases_receiver _ _ _ _ _ H).
Defined.

(** X16.  [Polynomial.Multiply] has no case for a polynomial, a vector, a
    matrix or an [int]: with such an operand it panics for every receiver,
    so two polynomials cannot be multiplied. *)
Theorem Polynomial_Multiply_unsupported (h : list (list Monomial))
  (p : Mem.PolynomialHdr) :
  (forall q, exists err,
     Mem.Polynomial_Multiply h p (VExpr (EPolynomial q)) = Panic err)
  /\ (forall kv, exists err,
        Mem.Polynomial_Multiply h p (VExpr (EKVector kv)) = Panic err)
  /\ (forall vv, exists err,
        Mem.Polynomial_Multiply h p (VExpr (EVariableVector vv)) = Panic err)
  /\ (forall vm, exists err,
        Mem.Polynomial_Multiply h p (VExpr (EVariableMatrix vm)) = Panic err)
  /\ (forall i, exists err, Mem.Polynomial_Multiply h p (VInt i) = Panic err).
Proof.
  repeat split; intros x; unfold Mem.Polynomial_Multiply;
    apply bind_panics; intros _; eexists; reflexivity.
Qed.

Lemma Polynomial_Check_scaled (k : K) (ms : list Monomial) :
  Polynomial_Check {| Monomials := map (scaled k) ms |} =
  Polynomial_Check {| Monomials := ms |}.
Proof.
  unfold Polynomial_Check. cbn [Monomials].
  induction ms as [|m ms IH]; [reflexivity|].
  cbn [map Polynomial_Check_loop].
  change (Monomial_Check (scaled k m)) with (Monomial_Check m).
  destruct (Monomial_Check m); [reflexivity | exact IH].
Qed.

(** X17.  Two multiplications by constants in a row: on a valid receiver
    both calls return the receiver's slice, and the receiver ends with
    every coefficient multiplied by the first constant and then by the
    second. *)
Theorem Polynomial_Multiply_K_twice (h : list (list Monomial))
  (p : Mem.PolynomialHdr) (k1 k2 : K)
  (Hwf : Mem.wf h (Mem.MonomialsHdr p))
  (Hc : Polynomial_Check (Mem.view h p) = None) :
  exists h1 h2,
    Mem.Polynomial_Multiply h p (VExpr (EK k1)) = Ok (p, h1)
    /\ Mem.Polynomial_Multiply h1 p (VExpr (EK k2)) = Ok (p, h2)
    /\ Mem.view h2 p =
         {| Monomials :=
              map (fun m => scaled k2 (scaled k1 m)) (Monomials (Mem.view h p)) |}.
Proof.
  destruct (Polynomial_Multiply_K_overwrites h p k1 Hwf Hc) as (h1 & Hrun1 & Hv1).
  pose proof (Polynomial_Multiply_keeps_wf _ _ _ _ _ Hrun1 Hwf) as Hwf1.
  assert (Hc1 : Polynomial_Check (Mem.view h1 p) = None).
  { rewrite Hv1, Polynomial_Check_scaled. destruct (Mem.view h p). exact Hc. }
  destruct (Polynomial_Multiply_K_overwrites h1 p k2 Hwf1 Hc1) as (h2 & Hrun2 & Hv2).
  exists h1, h2. split; [exact Hrun1|]. split; [exact Hrun2|].
  rewrite Hv2, Hv1. cbn [Monomials]. rewrite map_map. reflexivity.
Qed.

Lemma Polynomial_Multiply_K_twice_witness :
  Mem.wf h_2x0 (Mem.MonomialsHdr hdr_2x0)
  /\ Polynomial_Check (Mem.view h_2x0 hdr_2x0) = None
  /\ exists h1 h2,
       Mem.Polynomial_Multiply h_2x0 hdr_2x0 (VExpr (EK 3%float)) = Ok (hdr_2x0, h1)
       /\ Mem.Polynomial_Multiply h1 hdr_2x0 (VExpr (EK 5%float)) = Ok (hdr_2x0, h2)
       /\ Mem.view h2 hdr_2x0 =
            {| Monomials :=
                 map (fun m => scaled 5%float (scaled 3%float m))
                     (Monomials (Mem.view h_2x0 hdr_2x0)) |}.
Proof.
  assert (Hwf : Mem.wf h_2x0 (Mem.MonomialsHdr hdr_2x0)).
  { exists [m_2x0]. repeat split. simpl. lia. }
  split; [exact Hwf|]. split; [reflexivity|].
  apply (Polynomial_Multiply_K_twice h_2x0 hdr_2x0 3%float 5%float Hwf).
  reflexivity.
Defined.

(** ** More on [K.Comparison] *)

(** X18.  [K.Comparison] against a scalar never panics.  A [K], a
    [float64] (as a [K]) or a variable becomes the right-hand side of the
    [ScalarConstraint]; a monomial or a polynomial is not checked and is
    replaced by the constant [1], because [ToScalarExpression] does not
    recognise it and its error is dropped. *)
Theorem K_Comparison_scalar_operands (c : K) (sense : ConstrSense) :
  (forall r, K_Comparison c (VExpr (EK r)) sense =
             Ok (ScalarConstraint (EK c) (EK r) sense))
  /\ (forall f, K_Comparison c (VFloat64 f) sense =
                Ok (ScalarConstraint (EK c) (EK f) sense))
  /\ (forall v, K_Comparison c (VExpr (EVariable v)) sense =
                Ok (ScalarConstraint (EK c) (EVariable v) sense))
  /\ (forall m, K_Comparison c (VExpr (EMonomial m)) sense =
                Ok (ScalarConstraint (EK c) (EK 1%float) sense))
  /\ (forall p, K_Comparison c (VExpr (EPolynomial p)) sense =
                Ok (ScalarConstraint (EK c) (EK 1%float) sense)).
Proof. repeat split. Qed.

(** X19.  [K.Comparison] against a vector that passes [Check]: the result
    is a [VectorConstraint] with the operand on the right, unchanged, and on
    the left the constant vector of as many copies of the constant as the
    operand has rows. *)
Theorem K_Comparison_broadcasts (c : K) (rhs : Expression) (sense : ConstrSense)
  (Hvec : IsVectorExpression (VExpr rhs) = true)
  (Hc : Expression_Check rhs = None) :
  exists n : nat,
    Dims rhs = Ok [Z.of_nat n; 1]
    /\ K_Comparison c (VExpr rhs) sense =
         Ok (VectorConstraint (EKVector (repeat c n)) rhs sense).
Proof.
  destruct rhs as [k|v|m|p|kv|vv|vm]; try discriminate Hvec.
  - exists (length kv). split; [reflexivity|].
    apply K_Comparison_KVector. intros ->. discriminate Hc.
  - exists (length (Elements vv)). split; [reflexivity|].
    unfold K_Comparison, K_Comparison_inputs, K_Comparison_switch.
    cbn [IsExpression IsScalarExpression IsVectorExpression orb ToExpression
         ToVectorExpression bind fst].
    rewrite Hc. cbn [must bind].
    rewrite K_Comparison_broadcast_repeat. reflexivity.
Qed.

Lemma K_Comparison_broadcasts_witness :
  exists n : nat,
    Dims (EVariableVector vv_012) = Ok [Z.of_nat n; 1]
    /\ K_Comparison 5%float (VExpr (EVariableVector vv_012)) SenseLessThanEqual =
         Ok (VectorConstraint (EKVector (repeat 5%float n))
                              (EVariableVector vv_012) SenseLessThanEqual).
Proof.
  apply (K_Comparison_broadcasts 5%float (EVariableVector vv_012)); reflexivity.
Defined.

(** ** [K.Plus], [K.Multiply], [K.Minus] *)

(** X20.  Subtracting a constant from a constant goes through
    [Minus], [K.Multiply] and [K.Plus]: [c.Minus(r)] is the constant
    [c + r * (-1)], for a [K] and for a [float64] operand.  An [int]
    operand is accepted by [K.Plus] and [K.Multiply], after conversion, but
    makes [K.Minus] panic. *)
Theorem K_Minus_constants (M : Methods) (c r : K) (i : Z) :
  K_Minus M c (VExpr (EK r)) =
    Ok (EK (PrimFloat.add c (PrimFloat.mul r (-1)%float)))
  /\ K_Minus M c (VFloat64 r) =
       Ok (EK (PrimFloat.add c (PrimFloat.mul r (-1)%float)))
  /\ K_Minus M c (VInt i) = Panic (UnsupportedInputError "K.Minus" (VInt i))
  /\ K_Plus M c (VInt i) = Ok (EK (PrimFloat.add c (float_of_int M i)))
  /\ K_Multiply M c (VInt i) = Ok (EK (PrimFloat.mul c (float_of_int M i))).
Proof. repeat split. Qed.

Lemma bind_panics_left {A B : Type} (c : result A) (k : A -> result B) :
  (exists err, c = Panic err) -> exists err, bind c k = Panic err.
Proof. intros [err ->]. exists err. reflexivity. Qed.

Lemma VariableVector_Multiply_panics (vv : VariableVector) (e : value) :
  exists err, VariableVector_Multiply vv e = Panic err.
Proof.
  unfold VariableVector_Multiply. apply bind_panics. intros _. apply bind_Panic.
Qed.

Lemma VariableVector_Plus_panics (vv : VariableVector) (e : value) :
  exists err, VariableVector_Plus vv e = Panic err.
Proof. unfold VariableVector_Plus. apply bind_Panic. Qed.

(** X21.  A constant cannot be combined with a variable vector or a
    variable matrix: [K.Plus], [K.Minus] and [K.Multiply] panic for every
    such operand, whatever the methods declared elsewhere do ([Plus] and
    [Minus] because the container's own method always panics, [Multiply]
    because its type switch has no vector or matrix case). *)
Theorem K_arithmetic_rejects_variable_containers (M : Methods) (c : K)
  (vv : VariableVector) (vm : VariableMatrix) :
  (exists err, K_Plus M c (VExpr (EVariableVector vv)) = Panic err)
  /\ (exists err, K_Plus M c (VExpr (EVariableMatrix vm)) = Panic err)
  /\ (exists err, K_Minus M c (VExpr (EVariableVector vv)) = Panic err)
  /\ (exists err, K_Minus M c (VExpr (EVariableMatrix vm)) = Panic err)
  /\ (exists err, K_Multiply M c (VExpr (EVariableVector vv)) = Panic err)
  /\ (exists err, K_Multiply M c (VExpr (EVariableMatrix vm)) = Panic err).
Proof.
  repeat split.
  - unfold K_Plus. apply bind_panics. intros _. apply VariableVector_Plus_panics.
  - unfold K_Plus. apply bind_panics. intros _. apply VariableMatrix_Plus_panics.
  - unfold K_Minus. cbn [IsExpression IsScalarExpression IsVectorExpression orb].
    apply bind_panics. intros _. cbn [ToExpression IsScalarExpression
      IsVectorExpression ToVectorExpression bind fst].
    unfold Minus. apply bind_panics_left. apply VariableVector_Multiply_panics.
  - unfold K_Minus. cbn [IsExpression IsScalarExpression IsVectorExpression
      IsMatrixExpression orb].
    apply bind_panics. intros _. cbn [ToExpression IsScalarExpression
      IsVectorExpression IsMatrixExpression ToMatrixExpression bind fst].
    unfold Minus. apply bind_panics_left. apply VariableMatrix_Multiply_panics.
  - unfold K_Multiply. apply bind_panics. intros _. eexists. reflexivity.
  - unfold K_Multiply. apply bind_panics. intros _. eexists. reflexivity.
Qed.

(** ** More on [VariableVector] *)

Lemma VariableVector_Copy_loop_app (rest : list Var) :
  forall newVarSlice,
    VariableVector_Copy_loop newVarSlice rest = (newVarSlice ++ rest)%list.
Proof.
  induction rest as [|v rest IH]; intros acc; simpl.
  - rewrite app_nil_r. reflexivity.
  - rewrite IH, <- app_assoc. reflexivity.
Qed.

(** X22.  [Copy] returns a vector with the same elements in the same
    order. *)
Theorem VariableVector_Copy_same (vv : VariableVector) :
  VariableVector_Copy vv = vv.
Proof.
  unfold VariableVector_Copy. rewrite VariableVector_Copy_loop_app.
  destruct vv. reflexivity.
Qed.

(** X23.  [VariableVector.Multiply] never returns a value: every operand,
    once past the dimension check, reaches the default case of the type
    switch. *)
Theorem VariableVector_Multiply_never_returns (vv : VariableVector) (e : value) :
  exists err, VariableVector_Multiply vv e = Panic err.
Proof. apply VariableVector_Multiply_panics. Qed.

(** X24.  [VariableVector.Comparison] returns a constraint only for a
    constant vector, a dense vector or a variable vector of the receiver's
    dimensions.  The constraint holds the receiver on the left, unchanged,
    the operand on the right (a dense vector as the constant vector of its
    entries, the others unchanged) and the given sense.  Conversely, for
    each of these operands of the receiver's length it returns. *)
Theorem VariableVector_Comparison_returns (vv : VariableVector) (rhs : operand)
  (sense : ConstrSense) :
  (forall c : Constraint,
     VariableVector_Comparison_operand vv rhs sense = Ok c ->
     exists x : Expression,
       (rhs = OValue (VExpr x) \/ exists d, rhs = OVecDense d /\ x = EKVector d)
       /\ IsVectorExpression (VExpr x) = true
       /\ Dims x = Ok (VariableVector_Dims vv)
       /\ c = VectorConstraint (EVariableVector vv) x sense)
  /\ (forall kv : KVector,
        len kv = VariableVector_Len vv ->
        VariableVector_Comparison_operand vv (OValue (VExpr (EKVector kv))) sense
          = Ok (VectorConstraint (EVariableVector vv) (EKVector kv) sense)
        /\ VariableVector_Comparison_operand vv (OVecDense kv) sense
          = Ok (VectorConstraint (EVariableVector vv) (EKVector kv) sense))
  /\ (forall w : VariableVector,
        VariableVector_Len w = VariableVector_Len vv ->
        VariableVector_Comparison_operand vv (OValue (VExpr (EVariableVector w))) sense
          = Ok (VectorConstraint (EVariableVector vv) (EVariableVector w) sense)).
Proof.
  assert (Hval : forall (v : value) (c : Constraint),
            VariableVector_Comparison vv v sense = Ok c ->
            exists x : Expression,
              v = VExpr x
              /\ IsVectorExpression (VExpr x) = true
              /\ Dims x = Ok (VariableVector_Dims vv)
              /\ c = VectorConstraint (EVariableVector vv) x sense).
  { intros v c H. unfold VariableVector_Comparison in H.
    destruct v as [i|f|s|[k|v|m|p|kv|w|vm]]; try discriminate H.
    - destruct (Z.eqb_spec (VariableVector_Len vv) (len kv)) as [He|];
        [|discriminate H].
      injection H as <-. exists (EKVector kv). repeat split.
      cbn [Dims]. unfold KVector_Dims, VariableVector_Dims. rewrite He.
      reflexivity.
    - destruct (Z.eqb_spec (VariableVector_Len vv) (VariableVector_Len w))
        as [He|]; [|discriminate H].
      injection H as <-. exists (EVariableVector w). repeat split.
      cbn [Dims]. unfold VariableVector_Dims. rewrite He. reflexivity. }
  split; [|split].
  - intros c H. destruct rhs as [v|d]; cbn [VariableVector_Comparison_operand] in H.
    + destruct (Hval v c H) as (x & -> & Hv & Hd & Hc).
      exists x. split; [left; reflexivity|]. repeat split; assumption.
    + destruct (Hval _ c H) as (x & [= <-] & Hv & Hd & Hc).
      exists (EKVector d). split; [right; exists d; split; reflexivity|].
      repeat split; assumption.
  - intros kv Hlen. cbn [VariableVector_Comparison_operand].
    unfold VariableVector_Comparison. rewrite Hlen, Z.eqb_refl.
    split; reflexivity.
  - intros w Hlen. cbn [VariableVector_Comparison_operand].
    unfold VariableVector_Comparison. rewrite Hlen, Z.eqb_refl. reflexivity.
Qed.

Lemma VariableVector_Comparison_returns_witness :
  len [1%float; 2%float] = VariableVector_Len vv_01
  /\ VariableVector_Comparison_operand vv_01 (OVecDense [1%float; 2%float]) SenseEqual
     = Ok (VectorConstraint (EVariableVector vv_01)
                            (EKVector [1%float; 2%float]) SenseEqual)
  /\ exists x : Expression,
       (OVecDense [1%float; 2%float] = OValue (VExpr x)
        \/ exists d, OVecDense [1%float; 2%float] = OVecDense d /\ x = EKVector d)
       /\ IsVectorExpression (VExpr x) = true
       /\ Dims x = Ok (VariableVector_Dims vv_01)
       /\ VectorConstraint (EVariableVector vv_01)
                           (EKVector [1%float; 2%float]) SenseEqual
          = VectorConstraint (EVariableVector vv_01) x SenseEqual.
Proof.
  split; [reflexivity|].
  split.
  - apply (VariableVector_Comparison_returns vv_01
             (OVecDense [1%float; 2%float]) SenseEqual).
    reflexivity.
  - apply (VariableVector_Comparison_returns vv_01
             (OVecDense [1%float; 2%float]) SenseEqual).
    reflexivity.
Defined.

(** ** [ToScalarExpression] *)

(** X25.  [ToScalarExpression] returns no error exactly for the values
    [IsScalarExpression] accepts; its result is then a scalar expression
    that converts to itself (a [float64] becomes the [K] of the same
    value).  For every other value it returns the constant [1] together
    with the error. *)
Theorem ToScalarExpression_spec (e : value) :
  (snd (ToScalarExpression e) = None <-> IsScalarExpression e = true)
  /\ (IsScalarExpression e = true ->
        IsScalarExpression (VExpr (fst (ToScalarExpression e))) = true
        /\ ToScalarExpression (VExpr (fst (ToScalarExpression e)))
           = (fst (ToScalarExpression e), None)
        /\ (forall f, e = VFloat64 f -> fst (ToScalarExpression e) = EK f))
  /\ (IsScalarExpression e = false ->
        fst (ToScalarExpression e) = EK 1%float).
Proof.
  destruct e as [i|f|s|[k|v|m|p|kv|vv|vm]]; cbn;
    (split; [split; intros H; solve [reflexivity | discriminate H]|]);
    (split; [intros H; try discriminate H;
             repeat split; intros f' [= <-]; reflexivity
            | intros H; try discriminate H; reflexivity]).
Qed.

(** ** [At] and [Dims] *)

Lemma index_Ok_iff {A : Type} (s : list A) (i : Z) :
  (exists a, index s i = Ok a) <-> 0 <= i < Z.of_nat (length s).
Proof.
  unfold index. destruct (Z.ltb_spec i 0) as [Hneg|Hpos].
  - split; [intros [a Ha]; discriminate Ha | lia].
  - destruct (s !! Z.to_nat i) as [a|] eqn:Hl.
    + apply lookup_lt_Some in Hl. split; [lia | intros _; eauto].
    + apply lookup_ge_None in Hl. split; [intros [a Ha]; discriminate Ha | lia].
Qed.

(** X26.  [At] stays within the bounds that [Dims] reports: on a matrix of
    [nRows] rows and [nCols] columns, [At(ii, jj)] returns a variable
    exactly when [0 <= ii < nRows] and [0 <= jj < nCols], and panics
    otherwise. *)
Theorem VariableMatrix_At_bounds (vm : list (list Var)) (nRows nCols ii jj : Z)
  (Hd : VariableMatrix_Dims vm = Ok [nRows; nCols]) :
  ((exists v, VariableMatrix_At vm ii jj = Ok (EVariable v))
     <-> (0 <= ii < nRows /\ 0 <= jj < nCols))
  /\ ((exists err, VariableMatrix_At vm ii jj = Panic err)
     <-> ~ (0 <= ii < nRows /\ 0 <= jj < nCols)).
Proof.
  destruct (VariableMatrix_Dims_sound vm _ Hd) as (row0 & Hh & [= -> ->] & Hall).
  assert (Hc : VariableMatrix_Check vm = None).
  { unfold VariableMatrix_Dims in Hd.
    destruct (VariableMatrix_Check vm); [discriminate Hd | reflexivity]. }
  assert (Hres : (exists v, VariableMatrix_At vm ii jj = Ok (EVariable v))
                 <-> (0 <= ii < Z.of_nat (length vm)
                      /\ 0 <= jj < Z.of_nat (length row0))).
  { unfold VariableMatrix_At. rewrite Hc. cbn [must bind]. split.
    - intros [v Hv].
      destruct (index vm ii) as [vmRow|] eqn:Hi; [|discriminate Hv].
      cbn [bind] in Hv.
      destruct (index vmRow jj) as [w|] eqn:Hj; [|discriminate Hv].
      assert (Hlen : length vmRow = length row0).
      { unfold index in Hi. destruct (ii <? 0); [discriminate Hi|].
        destruct (vm !! Z.to_nat ii) as [r|] eqn:Hl; [|discriminate Hi].
        injection Hi as ->.
        exact (Forall_lookup_1 _ _ _ _ Hall Hl). }
      split.
      + apply index_Ok_iff. eauto.
      + rewrite <- Hlen. apply index_Ok_iff. eauto.
    - intros [Hi Hj].
      apply index_Ok_iff in Hi. destruct Hi as [vmRow Hi]. rewrite Hi.
      cbn [bind].
      assert (Hlen : length vmRow = length row0).
      { unfold index in Hi. destruct (ii <? 0); [discriminate Hi|].
        destruct (vm !! Z.to_nat ii) as [r|] eqn:Hl; [|discriminate Hi].
        injection Hi as ->.
        exact (Forall_lookup_1 _ _ _ _ Hall Hl). }
      rewrite <- Hlen in Hj. apply index_Ok_iff in Hj. destruct Hj as [v Hj].
      rewrite Hj. exists v. reflexivity. }
  split; [exact Hres|].
  split.
  - intros [err He] Hin. apply Hres in Hin. destruct Hin as [v Hv].
    rewrite Hv in He. discriminate He.
  - intros Hout.
    destruct (VariableMatrix_At vm ii jj) as [r|err] eqn:Hat; [|eauto].
    exfalso. apply Hout. apply Hres.
    unfold VariableMatrix_At in Hat. rewrite Hc in Hat. cbn [must bind] in Hat.
    destruct (index vm ii) as [vmRow|]; [|discriminate Hat]. cbn [bind] in Hat.
    destruct (index vmRow jj) as [w|]; [|discriminate Hat].
    injection Hat as <-. exists w. reflexivity.
Qed.

Lemma VariableMatrix_At_bounds_witness :
  ((exists v, VariableMatrix_At vm_2x3 1 2 = Ok (EVariable v))
     <-> (0 <= 1 < 2 /\ 0 <= 2 < 3))
  /\ ((exists err, VariableMatrix_At vm_2x3 1 2 = Panic err)
     <-> ~ (0 <= 1 < 2 /\ 0 <= 2 < 3)).
Proof.
  apply (VariableMatrix_At_bounds vm_2x3 2 3 1 2). reflexivity.
Defined.
